(** * SSH helper scripts: a shallow embedding and its properties

    The repository holds three scripts built on an SSH client library:
    [ssh_download.py] (one SFTP download), [ssh_mac.py] (one remote command)
    and [ssh_mac_interactive.py] (a queue of commands typed into an
    interactive shell, with timed polling for output).

    The scripts are embedded as functions of an explicit world state: a
    virtual clock, a scripted fake transport, the shell channel's buffers and
    a chronological trace of every effect.  Python exceptions are an explicit
    outcome, and [try]/[except]/[finally] are combinators over that outcome. *)

From Stdlib Require Import String Ascii.
From Stdlib Require Import Strings.Byte.
From Stdlib Require Import List ZArith NArith Lia Bool.
Import ListNotations.
Open Scope Z_scope.

(** ** Python values *)

(** A Python [str] is a sequence of Unicode code points. *)
Definition pystr := list N.

(** A string literal of the source (ASCII only in these scripts). *)
Definition lit (s : string) : pystr := map N_of_ascii (list_ascii_of_string s).

(** [sep.join(parts)] *)
Fixpoint join (sep : pystr) (parts : list pystr) : pystr :=
  match parts with
  | [] => []
  | [p] => p
  | p :: rest => p ++ sep ++ join sep rest
  end.

(** An exception caught by [except Exception as e], identified with [str(e)]. *)
Definition Exn := pystr.

(** ** [bytes.decode('utf-8', errors=...)]

    The decoder walks the bytes with a small state: either at the start of a
    character, or inside a multi-byte character with [need] continuation
    bytes missing, the code point accumulated so far, and the range the next
    byte must lie in (Unicode's table of well-formed UTF-8 sequences).  A
    malformed sequence is reported as [None]; the byte that broke a sequence
    is then read again as the start of a character. *)
Inductive dstate :=
| DStart
| DCont (need : nat) (acc lo hi : N).

Definition in_range (lo hi n : N) : bool := ((lo <=? n) && (n <=? hi))%N.

Definition utf8_start (n : N) : list (option N) * dstate :=
  if (n <? 128)%N then ([Some n], DStart)
  else if in_range 194 223 n then ([], DCont 1 (N.land n 31) 128 191)
  else if (n =? 224)%N then ([], DCont 2 (N.land n 15) 160 191)
  else if (n =? 237)%N then ([], DCont 2 (N.land n 15) 128 159)
  else if in_range 225 239 n then ([], DCont 2 (N.land n 15) 128 191)
  else if (n =? 240)%N then ([], DCont 3 (N.land n 7) 144 191)
  else if in_range 241 243 n then ([], DCont 3 (N.land n 7) 128 191)
  else if (n =? 244)%N then ([], DCont 3 (N.land n 7) 128 143)
  else ([None], DStart).

Definition utf8_step (st : dstate) (b : byte) : list (option N) * dstate :=
  let n := Byte.to_N b in
  match st with
  | DStart => utf8_start n
  | DCont need acc lo hi =>
      if in_range lo hi n then
        let acc' := (acc * 64 + N.land n 63)%N in
        match need with
        | S (S k) => ([], DCont (S k) acc' 128 191)
        | _ => ([Some acc'], DStart)
        end
      else
        let '(out, st') := utf8_start n in (None :: out, st')
  end.

Fixpoint utf8_scan (st : dstate) (bs : list byte) : list (option N) :=
  match bs with
  | [] => match st with DStart => [] | DCont _ _ _ _ => [None] end
  | b :: bs' => let '(out, st') := utf8_step st b in out ++ utf8_scan st' bs'
  end.

(** The error handlers of [bytes.decode]: [strict] (the default) raises,
    [ignore] drops the malformed bytes, [replace] puts U+FFFD in their place. *)
Definition drop_malformed (o : option N) : list N :=
  match o with Some c => [c] | None => [] end.

Definition replace_malformed (o : option N) : list N :=
  match o with Some c => [c] | None => [65533%N] end.

Definition decode_ignore (bs : list byte) : pystr :=
  flat_map drop_malformed (utf8_scan DStart bs).

Definition decode_replace (bs : list byte) : pystr :=
  flat_map replace_malformed (utf8_scan DStart bs).

Fixpoint all_wellformed (l : list (option N)) : option pystr :=
  match l with
  | [] => Some []
  | Some c :: l' => option_map (cons c) (all_wellformed l')
  | None :: _ => None
  end.

Definition decode_strict (bs : list byte) : option pystr :=
  all_wellformed (utf8_scan DStart bs).

(** ** The world the scripts run in *)

Inductive Stream := Stdout | Stderr.

(** One entry of the trace per effect the scripts have on the outside. *)
Inductive Op :=
| EvHostKeyPolicy                      (* set_missing_host_key_policy(AutoAddPolicy()) *)
| EvConnect (host username password : pystr) (look_for_keys allow_agent : bool) (timeout : Z)
| EvOpenSftp
| EvGet (remote_path local_path : pystr)
| EvSftpClose
| EvExec (command : pystr) (timeout : Z)
| EvRead (s : Stream)
| EvInvokeShell
| EvSetTimeout (timeout : Z)
| EvSleep (ms : Z)
| EvSend (data : pystr)
| EvRecv (data : list byte)
| EvPrint (text : pystr)
| EvClose.

(** The state threaded through a script.  Time is a virtual clock in
    milliseconds, advanced by [time.sleep] only.  [faults] is the script of
    the fake transport: the next library call raises the head when it is
    [Some e].  [pending] is the remote side's schedule: each payload enters
    the channel's buffer [inbuf] once the clock has reached its time. *)
Record World := mkWorld {
  clock : Z;
  faults : list (option Exn);
  inbuf : list byte;
  pending : list (Z * list byte);
  remote_stdout : list byte;
  remote_stderr : list byte;
  remote_fs : list (pystr * list byte);
  local_fs : list (pystr * list byte);
  trace : list (Z * Op)
}.

Definition set_clock (t : Z) (w : World) : World :=
  mkWorld t (faults w) (inbuf w) (pending w) (remote_stdout w) (remote_stderr w)
          (remote_fs w) (local_fs w) (trace w).

Definition set_faults (fs : list (option Exn)) (w : World) : World :=
  mkWorld (clock w) fs (inbuf w) (pending w) (remote_stdout w) (remote_stderr w)
          (remote_fs w) (local_fs w) (trace w).

Definition set_channel (buf : list byte) (pend : list (Z * list byte)) (w : World) : World :=
  mkWorld (clock w) (faults w) buf pend (remote_stdout w) (remote_stderr w)
          (remote_fs w) (local_fs w) (trace w).

Definition set_local_fs (fs : list (pystr * list byte)) (w : World) : World :=
  mkWorld (clock w) (faults w) (inbuf w) (pending w) (remote_stdout w) (remote_stderr w)
          (remote_fs w) fs (trace w).

Definition log (op : Op) (w : World) : World :=
  mkWorld (clock w) (faults w) (inbuf w) (pending w) (remote_stdout w) (remote_stderr w)
          (remote_fs w) (local_fs w) (trace w ++ [(clock w, op)]).

(** ** Outcomes and the monad of script steps *)

Inductive Outcome (A : Type) :=
| Ret (a : A)
| Raise (e : Exn).
Arguments Ret {A} a.
Arguments Raise {A} e.

(** A step maps a world to an outcome and a new world; [None] is a loop that
    ran out of the fuel the model gave it. *)
Definition M (A : Type) := World -> option (Outcome A * World).

Definition ret {A} (a : A) : M A := fun w => Some (Ret a, w).

Definition raise {A} (e : Exn) : M A := fun w => Some (Raise e, w).

Definition bind {A B} (m : M A) (f : A -> M B) : M B :=
  fun w => match m w with
           | Some (Ret a, w') => f a w'
           | Some (Raise e, w') => Some (Raise e, w')
           | None => None
           end.

Notation "x <- m ;; k" := (bind m (fun x => k))
  (at level 61, m at next level, right associativity).
Notation "m ;; k" := (bind m (fun _ => k))
  (at level 61, right associativity).

(** [try: body / except Exception as e: handler e] *)
Definition try_except {A} (body : M A) (handler : Exn -> M A) : M A :=
  fun w => match body w with
           | Some (Raise e, w') => handler e w'
           | r => r
           end.

(** [try: body / finally: final]: [final] runs on every exit of [body]; the
    outcome of [body] stands unless [final] itself raises. *)
Definition try_finally {A} (body : M A) (final : M unit) : M A :=
  fun w => match body w with
           | Some (r, w') =>
               match final w' with
               | Some (Ret _, w'') => Some (r, w'')
               | Some (Raise e, w'') => Some (Raise e, w'')
               | None => None
               end
           | None => None
           end.

(** ** Library calls *)

Definition effect (op : Op) : M unit := fun w => Some (Ret tt, log op w).

(** Every call into the transport first consults the fault script. *)
Definition fault_check : M unit :=
  fun w => let w' := set_faults (tl (faults w)) w in
           match hd None (faults w) with
           | Some e => Some (Raise e, w')
           | None => Some (Ret tt, w')
           end.

Definition transport (op : Op) : M unit := fault_check ;; effect op.

(** [print(text)] writes the text and a newline; [print(text, end='')]
    writes the text alone. *)
Definition newline : pystr := [10%N].
Definition print (text : pystr) : M unit := effect (EvPrint (text ++ newline)).
Definition print_raw (text : pystr) : M unit := effect (EvPrint text).

(** [time.sleep]: the only step that moves the clock. *)
Definition sleep (ms : Z) : M unit :=
  fun w => Some (Ret tt, set_clock (clock w + ms) (log (EvSleep ms) w)).

(** [time.time()] *)
Definition time_time : M Z := fun w => Some (Ret (clock w), w).

(** [client.close()] *)
Definition client_close : M unit := effect EvClose.

Definition client_connect (host username password : pystr) (timeout : Z) : M unit :=
  transport (EvConnect host username password false false timeout).

Fixpoint lookup_file (path : pystr) (fs : list (pystr * list byte)) : option (list byte) :=
  match fs with
  | [] => None
  | (p, content) :: fs' =>
      if list_eq_dec N.eq_dec p path then Some content else lookup_file path fs'
  end.

(** [sftp.get(remote_path, local_path)].  The library opens the local file
    for writing before it asks the server for the remote one, so a get that
    fails leaves an empty local file behind; a missing remote file raises. *)
Definition sftp_get (remote_path local_path : pystr) : M unit :=
  fun w =>
    let opened := set_local_fs ((local_path, []) :: local_fs w) w in
    (fault_check ;;
     fun w1 => match lookup_file remote_path (remote_fs w1) with
               | Some content =>
                   Some (Ret tt, log (EvGet remote_path local_path)
                                   (set_local_fs ((local_path, content) :: local_fs w) w1))
               | None => Some (Raise (lit "[Errno 2] No such file"), w1)
               end) opened.

(** [stream.read()]: the whole of what the remote process wrote. *)
Definition stream_read (s : Stream) : M (list byte) :=
  transport (EvRead s) ;;
  fun w => Some (Ret (match s with Stdout => remote_stdout w | Stderr => remote_stderr w end), w).

(** [bytes.decode()] with the default strict handler. *)
Definition decode (bs : list byte) : M pystr :=
  match decode_strict bs with
  | Some s => ret s
  | None => raise (lit "'utf-8' codec can't decode bytes")
  end.

(** Payloads whose time has come move into the channel's buffer. *)
Definition arrived (t : Z) (p : Z * list byte) : bool := fst p <=? t.

Definition deliver (w : World) : World :=
  set_channel
    (inbuf w ++ concat (map snd (filter (arrived (clock w)) (pending w))))
    (filter (fun p => negb (arrived (clock w) p)) (pending w))
    w.

Definition is_empty {A} (l : list A) : bool :=
  match l with [] => true | _ => false end.

(** The buffer size both loops of the interactive driver pass to [recv]. *)
Definition chunk_size : nat := 4096.

(** [channel.recv_ready()] *)
Definition recv_ready : M bool :=
  fault_check ;;
  fun w => let w1 := deliver w in Some (Ret (negb (is_empty (inbuf w1))), w1).

(** [channel.recv(nbytes)].  The scripts call it only after [recv_ready]
    answered true, where it returns at once with up to [nbytes] buffered
    bytes; on an empty buffer the fake channel times out. *)
Definition recv (nbytes : nat) : M (list byte) :=
  fault_check ;;
  fun w => let w1 := deliver w in
           match inbuf w1 with
           | [] => Some (Raise (lit "timed out"), w1)
           | buf => let data := firstn nbytes buf in
                    Some (Ret data,
                          log (EvRecv data) (set_channel (skipn nbytes buf) (pending w1) w1))
           end.

(** [channel.send(s)] *)
Definition send (s : pystr) : M unit := transport (EvSend s).

(** ** [ssh_download.py] *)
Module Download.

(** The [try] block of [download_file]. *)
Definition download_body (host username password remote_path local_path : pystr) : M bool :=
  print (lit "Connecting to " ++ host ++ lit "...") ;;
  client_connect host username password 30 ;;
  print (lit "Connected!") ;;
  transport EvOpenSftp ;;
  print (lit "Downloading " ++ remote_path ++ lit " to " ++ local_path ++ lit "...") ;;
  sftp_get remote_path local_path ;;
  print (lit "Download complete!") ;;
  transport EvSftpClose ;;
  ret true.

Definition download_handler (e : Exn) : M bool :=
  print (lit "Error: " ++ e) ;;
  ret false.

Definition download_file (host username password remote_path local_path : pystr) : M bool :=
  effect EvHostKeyPolicy ;;
  try_finally
    (try_except (download_body host username password remote_path local_path)
                download_handler)
    client_close.

Definition host : pystr := lit "74.91.11.165".
Definition username : pystr := lit "user289978".
Definition password : pystr := lit "cnd77867fdh".
Definition default_remote_path : pystr := lit "/tmp/sim_screenshot3.png".
Definition default_local_path : pystr :=
  lit "C:/Users/snpsa/love-ledger/scripts/sim_screenshot3.png".

(** The paths [__main__] picks from [sys.argv] (the script's name first). *)
Definition main_paths (argv : list pystr) : pystr * pystr :=
  if (3 <=? length argv)%nat
  then (nth 1 argv [], nth 2 argv [])
  else (default_remote_path, default_local_path).

Definition main (argv : list pystr) : M unit :=
  let '(remote_path, local_path) := main_paths argv in
  download_file host username password remote_path local_path ;;
  ret tt.

End Download.

(** ** [ssh_mac.py] *)
Module Runner.

(** [if text: print(header); print(text)] *)
Definition show (header text : pystr) : M unit :=
  if is_empty text then ret tt else print header ;; print text.

(** The [try] block of [run_ssh_command]. *)
Definition run_body (host username password command : pystr) : M (option pystr * pystr) :=
  print (lit "Connecting to " ++ host ++ lit "...") ;;
  client_connect host username password 30 ;;
  print (lit "Connected!") ;;
  transport (EvExec command 300) ;;
  raw_output <- stream_read Stdout ;;
  output <- decode raw_output ;;
  raw_errors <- stream_read Stderr ;;
  errors <- decode raw_errors ;;
  show (lit "STDOUT:") output ;;
  show (lit "STDERR:") errors ;;
  ret (Some output, errors).

Definition run_handler (e : Exn) : M (option pystr * pystr) :=
  print (lit "Error: " ++ e) ;;
  ret (None, e).

Definition run_ssh_command (host username password command : pystr)
  : M (option pystr * pystr) :=
  effect EvHostKeyPolicy ;;
  try_finally
    (try_except (run_body host username password command) run_handler)
    client_close.

Definition host : pystr := lit "74.91.11.165".
Definition username : pystr := lit "user289978".
Definition password : pystr := lit "cnd77867fdh".
Definition default_command : pystr := lit "pwd && ls -la".

(** [sys.argv[1] if len(sys.argv) > 1 else "pwd && ls -la"] *)
Definition main_command (argv : list pystr) : pystr :=
  if (1 <? length argv)%nat then nth 1 argv [] else default_command.

Definition main (argv : list pystr) : M unit :=
  run_ssh_command host username password (main_command argv) ;;
  ret tt.

End Runner.

(** ** [ssh_mac_interactive.py] *)
Module Interactive.

(** Bytes the channel still holds or will still receive. *)
Definition channel_bytes (w : World) : nat :=
  (length (inbuf w) + length (concat (map snd (pending w))))%nat.

(** [while channel.recv_ready(): channel.recv(4096)] *)
Fixpoint drain_loop (fuel : nat) : M unit :=
  match fuel with
  | O => fun _ => None
  | S fuel' =>
      ready <- recv_ready ;;
      if ready then recv chunk_size ;; drain_loop fuel' else ret tt
  end.

Definition drain_banner : M unit :=
  fun w => drain_loop (S (channel_bytes w)) w.

(** The collection loop of one command:
    [while time.time() - start_time < 30: ...], with the locals [output] and
    [start_time] as arguments. *)
Fixpoint collect_loop (fuel : nat) (output : pystr) (start_time : Z) : M pystr :=
  match fuel with
  | O => fun _ => None
  | S fuel' =>
      now <- time_time ;;
      if now - start_time <? 30000 then
        ready <- recv_ready ;;
        if ready then
          raw <- recv chunk_size ;;
          let data := decode_ignore raw in
          let output := output ++ data in
          print_raw data ;;
          start_time <- time_time ;;
          collect_loop fuel' output start_time
        else
          sleep 100 ;;
          collect_loop fuel' output start_time
      else ret output
  end.

(** Each byte read allows a fresh window of 300 polls. *)
Definition collect_fuel (w : World) : nat := (301 * channel_bytes w + 302)%nat.

(** [output = ""; start_time = time.time(); while ...]; the value is the
    local [output] as the loop leaves it. *)
Definition collect : M pystr :=
  start_time <- time_time ;;
  fun w => collect_loop (collect_fuel w) [] start_time w.

(** The body of [for cmd in commands]. *)
Definition run_one (cmd : pystr) : M pystr :=
  print (newline ++ lit ">>> Running: " ++ cmd) ;;
  send (cmd ++ newline) ;;
  sleep 2000 ;;
  collect.

Fixpoint run_commands (commands : list pystr) : M unit :=
  match commands with
  | [] => ret tt
  | cmd :: rest => run_one cmd ;; run_commands rest
  end.

(** From the first line of the [try] block to the shell being ready. *)
Definition open_shell (host username password : pystr) (timeout : Z) : M unit :=
  print (lit "Connecting to " ++ host ++ lit "...") ;;
  client_connect host username password 30 ;;
  print (lit "Connected!") ;;
  transport EvInvokeShell ;;
  effect (EvSetTimeout timeout) ;;
  sleep 1000.

(** The [try] block of [run_interactive_ssh]. *)
Definition interactive_body (host username password : pystr) (commands : list pystr)
  (timeout : Z) : M bool :=
  open_shell host username password timeout ;;
  drain_banner ;;
  run_commands commands ;;
  ret true.

Definition interactive_handler (e : Exn) : M bool :=
  print (lit "Error: " ++ e) ;;
  ret false.

Definition run_interactive_ssh (host username password : pystr) (commands : list pystr)
  (timeout : Z) : M bool :=
  effect EvHostKeyPolicy ;;
  try_finally
    (try_except (interactive_body host username password commands timeout)
                interactive_handler)
    client_close.

End Interactive.

(** ** [ssh_mac_interactive.py], the main program *)
Module InteractiveMain.

Definition host : pystr := lit "74.91.11.165".
Definition username : pystr := lit "user289978".
Definition password : pystr := lit "cnd77867fdh".

(** The double quote inside the shell lines below. *)
Definition dq : pystr := [34%N].

(** The queue [__main__] runs when no command is given. *)
Definition default_commands : list pystr :=
  [ lit "export NVM_DIR=" ++ dq ++ lit "/Users/user289978/.nvm" ++ dq
      ++ lit " && [ -s " ++ dq ++ lit "$NVM_DIR/nvm.sh" ++ dq
      ++ lit " ] && . " ++ dq ++ lit "$NVM_DIR/nvm.sh" ++ dq;
    lit "cd ~/love-ledger && npx expo start --ios --no-dev --minify 2>&1 &";
    lit "sleep 10 && echo " ++ dq ++ lit "Metro started, checking status..." ++ dq;
    lit "curl -s http://localhost:8081/status || echo " ++ dq
      ++ lit "Metro not responding yet" ++ dq ].

(** [commands = sys.argv[1:]] when [len(sys.argv) > 1]. *)
Definition main_commands (argv : list pystr) : list pystr :=
  if (1 <? length argv)%nat then skipn 1 argv else default_commands.

(** [run_interactive_ssh(host, username, password, commands)], with the
    default [timeout=120]. *)
Definition main (argv : list pystr) : M unit :=
  Interactive.run_interactive_ssh host username password (main_commands argv) 120 ;;
  ret tt.

End InteractiveMain.

(** ** Reading the trace *)

Definition is_close (op : Op) : bool :=
  match op with EvClose => true | _ => false end.

(** How many times [client.close()] has been called. *)
Definition closes_in (evs : list (Z * Op)) : nat :=
  length (filter (fun e => is_close (snd e)) evs).

Definition closes (w : World) : nat := closes_in (trace w).

(** What has been written to the channel, with the time of each write. *)
Fixpoint sends_in (evs : list (Z * Op)) : list (Z * pystr) :=
  match evs with
  | [] => []
  | (t, EvSend s) :: rest => (t, s) :: sends_in rest
  | _ :: rest => sends_in rest
  end.

Definition sends (w : World) : list (Z * pystr) := sends_in (trace w).

(** What has been written to the console. *)
Fixpoint printed_in (evs : list (Z * Op)) : pystr :=
  match evs with
  | [] => []
  | (_, EvPrint s) :: rest => s ++ printed_in rest
  | _ :: rest => printed_in rest
  end.

(** The text of the chunks received, each decoded on its own with the
    malformed bytes dropped. *)
Fixpoint collected_in (evs : list (Z * Op)) : pystr :=
  match evs with
  | [] => []
  | (_, EvRecv d) :: rest => decode_ignore d ++ collected_in rest
  | _ :: rest => collected_in rest
  end.

(** Every chunk received is followed at once by the printing of its
    decoded text, and nothing else is printed. *)
Fixpoint echoed (evs : list (Z * Op)) : Prop :=
  match evs with
  | [] => True
  | (_, EvRecv d) :: rest =>
      match rest with
      | (_, EvPrint s) :: rest' => s = decode_ignore d /\ echoed rest'
      | _ => False
      end
  | (_, EvPrint _) :: _ => False
  | _ :: rest => echoed rest
  end.

(** The time of the last chunk received, [start] when there is none. *)
Fixpoint last_reset (start : Z) (evs : list (Z * Op)) : Z :=
  match evs with
  | [] => start
  | (t, EvRecv _) :: rest => last_reset t rest
  | _ :: rest => last_reset start rest
  end.

(** The effects of a collection loop. *)
Definition polling (e : Z * Op) : Prop :=
  match snd e with
  | EvSleep ms => ms = 100
  | EvRecv _ | EvPrint _ => True
  | _ => False
  end.

(** Consecutive times at least [gap] apart. *)
Fixpoint spaced (gap : Z) (times : list Z) : Prop :=
  match times with
  | a :: (b :: _) as rest => a + gap <= b /\ spaced gap rest
  | _ => True
  end.

Definition is_ret {A} (r : Outcome A) : bool :=
  match r with Ret _ => true | Raise _ => false end.

Import Interactive.

(** ** Auxiliary notions for the proofs *)

(** No scheduled payload is due: [deliver] has nothing to move. *)
Definition settled (w : World) : Prop :=
  Forall (fun p => arrived (clock w) p = false) (pending w).

(** How many more idle polls the window that began at [start] allows. *)
Definition polls_left (start : Z) (w : World) : nat :=
  Z.to_nat ((start + 30000 - clock w + 99) / 100).

(** The clock stands a whole number of polls into the window. *)
Definition aligned (start now : Z) : Prop :=
  exists k, 0 <= k <= 300 /\ now = start + 100 * k.

Ltac proj := cbn [clock faults inbuf pending trace remote_stdout remote_stderr remote_fs
                  local_fs log set_clock set_faults set_channel set_local_fs deliver].

Ltac proj_in H :=
  cbn [clock faults inbuf pending trace remote_stdout remote_stderr remote_fs
       local_fs log set_clock set_faults set_channel set_local_fs deliver] in H.

(** An effect that neither writes to the channel nor closes the connection. *)
Definition quiet (e : Z * Op) : Prop :=
  match snd e with
  | EvSend _ | EvClose => False
  | _ => True
  end.

Definition not_close (e : Z * Op) : Prop := is_close (snd e) = false.

(** [m] always ends, and the effects it adds to the trace all satisfy [Q]. *)
Definition steps {A} (Q : Z * Op -> Prop) (m : M A) : Prop :=
  forall w, exists r w' evs,
    m w = Some (r, w') /\ trace w' = trace w ++ evs /\ Forall Q evs.

(** What [show header text] writes at time [t]. *)
Definition shown (t : Z) (header text : pystr) : list (Z * Op) :=
  if is_empty text then []
  else [(t, EvPrint (header ++ newline)); (t, EvPrint (text ++ newline))].

(** The shape shared by the three entry points:
    [try: body / except Exception as e: print(f"Error: {e}"); return fail(e) /
    finally: client.close()], after the host key policy is set. *)
Definition guarded {A} (body : M A) (fail : Exn -> A) : M A :=
  effect EvHostKeyPolicy ;;
  try_finally
    (try_except body (fun e => print (lit "Error: " ++ e) ;; ret (fail e)))
    client_close.

(** What the [except] and [finally] blocks add after the [try] block ended
    with outcome [r] in world [w]. *)
Definition after_try {A} (fail : Exn -> A) (r : Outcome A) (w : World) : Outcome A * World :=
  match r with
  | Ret a => (Ret a, log EvClose w)
  | Raise e => (Ret (fail e), log EvClose (log (EvPrint ((lit "Error: " ++ e) ++ newline)) w))
  end.

(** The commands handed to [exec_command]. *)
Fixpoint executed_in (evs : list (Z * Op)) : list pystr :=
  match evs with
  | [] => []
  | (_, EvExec command _) :: rest => command :: executed_in rest
  | _ :: rest => executed_in rest
  end.

(** Nothing but [command] is executed. *)
Definition executes_only (command : pystr) (e : Z * Op) : Prop :=
  match snd e with
  | EvExec c _ => c = command
  | _ => True
  end.

(** A world in which nothing has happened yet and the transport never fails. *)
Definition idle : World := mkWorld 0 [] [] [] [] [] [] [] [].

(** The command line [ssh_mac.py ls -la]. *)
Definition argv_ls_la : list pystr := [lit "ssh_mac.py"; lit "ls"; lit "-la"].

(** A channel holding the two bytes [ff 61]: a byte that starts no UTF-8
    sequence, then the letter a. *)
Definition malformed_chunk : list byte := [xff; x61].
Definition world_malformed : World := mkWorld 0 [] malformed_chunk [] [] [] [] [] [].

(** A channel on which the login banner [hi] is already buffered. *)
Definition world_banner : World := mkWorld 0 [] [x68; x69] [] [] [] [] [] [].

(** A remote side that writes one byte every ten seconds for a minute. *)
Definition world_chatty : World :=
  mkWorld 0 [] []
    [(10000, [x61]); (20000, [x62]); (30000, [x63]); (40000, [x64]); (50000, [x65]);
     (60000, [x66])]
    [] [] [] [] [].

(** A transport whose third call, the transfer, fails. *)
Definition world_transfer_fails : World :=
  mkWorld 0 [None; None; Some (lit "Failure")] [] [] [] []
          [(lit "/tmp/a.png", [x89; x50])] [] [].

(** A remote side that holds the file asked for. *)
Definition world_with_file : World :=
  mkWorld 0 [] [] [] [] [] [(lit "/tmp/a.png", [x89; x50])] [] [].

(** A remote command that writes [hi] to stdout and nothing to stderr. *)
Definition world_stdout_only : World := mkWorld 0 [] [] [] [x68; x69] [] [] [] [].

(** The outcome of a run, without the world. *)
Definition outcome_of {A} (r : option (Outcome A * World)) : option (Outcome A) :=
  option_map fst r.

(** The times at which a queue is written to a channel that stays silent,
    the first command at [t]: one command every 32 seconds. *)
Fixpoint schedule (t : Z) (commands : list pystr) : list (Z * pystr) :=
  match commands with
  | [] => []
  | cmd :: rest => (t, cmd ++ newline) :: schedule (t + 32000) rest
  end.

(** A transport whose first call, the connect, fails. *)
Definition world_unreachable : World :=
  mkWorld 0 [Some (lit "timed out")] [] [] [] [] [] [] [].

(** A remote command whose stdout is not UTF-8 and whose stderr is [hi]. *)
Definition world_binary_stdout : World :=
  mkWorld 0 [] [] [] malformed_chunk [x68; x69] [] [] [].

(** A channel with the banner [hi] buffered and one byte due much later. *)
Definition world_banner_and_more : World :=
  mkWorld 0 [] [x68; x69] [(5000, [x61])] [] [] [] [] [].








(** A transport that carries the transfer through and fails when the SFTP
    channel is closed afterwards. *)
Definition world_sftp_close_fails : World :=
  mkWorld 0 [None; None; None; Some (lit "Socket is closed")] [] [] [] []
          [(lit "/tmp/a.png", [x89; x50])] [] [].


(** The next [n] transport calls meet no fault. *)
Fixpoint clean (n : nat) (fs : list (option Exn)) : Prop :=
  match n with
  | O => True
  | S n' => hd None fs = None /\ clean n' (tl fs)
  end.


(** The bytes received, chunk after chunk. *)
Fixpoint received_in (evs : list (Z * Op)) : list byte :=
  match evs with
  | [] => []
  | (_, EvRecv d) :: rest => d ++ received_in rest
  | _ :: rest => received_in rest
  end.

(** Every byte the channel holds or will receive satisfies [P]. *)
Definition all_bytes (P : byte -> Prop) (w : World) : Prop :=
  Forall P (inbuf w) /\ Forall (fun p => Forall P (snd p)) (pending w).

(** A collection loop in this state will poll the channel before it ends,
    unless the poll just made found it empty. *)
Definition about_to_poll (start : Z) (w : World) : Prop :=
  clock w - start < 30000 \/
  (inbuf w = [] /\ Forall (fun p => clock w - 100 < fst p) (pending w)).






(** * Properties *)

(** ** The channel *)

Lemma chunk_size_pos : (0 < chunk_size)%nat.
Proof. unfold chunk_size. lia. Qed.

Lemma lookup_file_head path content fs :
  lookup_file path ((path, content) :: fs) = Some content.
Proof.
  cbn [lookup_file]. destruct (list_eq_dec N.eq_dec path path); [reflexivity|contradiction].
Qed.

Lemma partition_bytes (f : Z * list byte -> bool) (l : list (Z * list byte)) :
  (length (concat (map snd (filter f l)))
   + length (concat (map snd (filter (fun p => negb (f p)) l))))%nat
  = length (concat (map snd l)).
Proof.
  induction l as [|p l IH]; simpl; [reflexivity|].
  destruct (f p); simpl; rewrite !length_app; lia.
Qed.

Lemma deliver_bytes w : channel_bytes (deliver w) = channel_bytes w.
Proof.
  unfold channel_bytes, deliver; simpl.
  rewrite length_app.
  pose proof (partition_bytes (arrived (clock w)) (pending w)). lia.
Qed.

Lemma settled_deliver w : settled (deliver w).
Proof.
  unfold settled, deliver; simpl.
  apply Forall_forall. intros p Hp. apply filter_In in Hp.
  destruct Hp as [_ Hp]. now apply negb_true_iff in Hp.
Qed.

Lemma filter_none {A} (f : A -> bool) l :
  Forall (fun x => f x = false) l -> filter f l = [] /\ filter (fun x => negb (f x)) l = l.
Proof.
  induction 1 as [|x l Hx _ [IH1 IH2]]; simpl; [auto|].
  rewrite Hx; simpl. now rewrite IH2.
Qed.

Lemma deliver_fixed w : settled w -> deliver w = w.
Proof.
  intros H. apply filter_none in H. destruct H as [H1 H2].
  unfold deliver. rewrite H1, H2. simpl. rewrite app_nil_r. now destruct w.
Qed.

Lemma deliver_again fs w : deliver (set_faults fs (deliver w)) = set_faults fs (deliver w).
Proof. apply deliver_fixed. exact (settled_deliver w). Qed.

Lemma collect_loop_unfold fuel out start w :
  collect_loop (S fuel) out start w =
  if clock w - start <? 30000 then
    let w1 := set_faults (tl (faults w)) w in
    match hd None (faults w) with
    | Some e => Some (Raise e, w1)
    | None =>
        let w2 := deliver w1 in
        match inbuf w2 with
        | [] => collect_loop fuel out start (set_clock (clock w + 100) (log (EvSleep 100) w2))
        | buf =>
            let w3 := set_faults (tl (faults w2)) w2 in
            match hd None (faults w2) with
            | Some e => Some (Raise e, w3)
            | None =>
                let data := firstn chunk_size buf in
                let w4 := log (EvPrint (decode_ignore data))
                           (log (EvRecv data) (set_channel (skipn chunk_size buf) (pending w2) w3)) in
                collect_loop fuel (out ++ decode_ignore data) (clock w) w4
            end
        end
    end
  else Some (Ret out, w).
Proof.
  cbn [collect_loop]. unfold bind at 1. unfold time_time at 1.
  destruct (clock w - start <? 30000); [|reflexivity].
  unfold bind at 1. unfold recv_ready at 1. unfold bind at 1. unfold fault_check at 1.
  cbv zeta.
  destruct (hd None (faults w)); [reflexivity|].
  set (w2 := deliver (set_faults (tl (faults w)) w)).
  destruct (inbuf w2) as [|b l] eqn:Hbuf; cbn [is_empty negb].
  - reflexivity.
  - unfold bind at 1. unfold recv at 1. unfold bind at 1. unfold fault_check at 1.
    cbv zeta.
    destruct (hd None (faults w2)); [reflexivity|].
    pose proof (deliver_again (tl (faults w2)) (set_faults (tl (faults w)) w)) as Hd.
    fold w2 in Hd. rewrite !Hd.
    cbn [inbuf set_faults]. rewrite Hbuf.
    unfold bind at 1. unfold print_raw at 1, effect at 1.
    unfold bind at 1. unfold time_time at 1.
    reflexivity.
Qed.

Lemma collect_loop_run : forall fuel out start w,
  (301 * channel_bytes w + polls_left start w < fuel)%nat ->
  start <= clock w ->
  exists r w' evs,
    collect_loop fuel out start w = Some (r, w') /\
    trace w' = trace w ++ evs /\
    Forall polling evs /\ echoed evs /\
    clock w <= clock w' /\
    (faults w = [] -> is_ret r = true /\ faults w' = []) /\
    (forall o, r = Ret o ->
       o = out ++ collected_in evs /\
       start + 30000 <= clock w' /\
       (aligned start (clock w) -> clock w' = last_reset start evs + 30000)).
Proof.
  induction fuel as [|fuel IH]; intros out start w Hfuel Hstart; [lia|].
  rewrite collect_loop_unfold.
  destruct (clock w - start <? 30000) eqn:Hcond.
  2:{ apply Z.ltb_ge in Hcond.
      exists (Ret out), w, []. rewrite !app_nil_r.
      split; [reflexivity|]. split; [reflexivity|].
      split; [constructor|]. split; [exact I|]. split; [lia|].
      split; [intros Hnil; split; [reflexivity|exact Hnil]|].
      intros o Ho. injection Ho as <-.
      split; [reflexivity|]. split; [lia|].
      intros [k [Hk Hclock]]. cbn [last_reset]. lia. }
  apply Z.ltb_lt in Hcond. cbv zeta.
  destruct (hd None (faults w)) as [e|] eqn:Hf1.
  { exists (Raise e), (set_faults (tl (faults w)) w), []. proj. rewrite app_nil_r.
    split; [reflexivity|]. split; [reflexivity|].
    split; [constructor|]. split; [exact I|]. split; [lia|].
    split; [intros Hnil; rewrite Hnil in Hf1; discriminate|discriminate]. }
  set (w2 := deliver (set_faults (tl (faults w)) w)).
  assert (Hb2 : channel_bytes w2 = channel_bytes w)
    by (unfold w2; now rewrite deliver_bytes).
  assert (Hc2 : clock w2 = clock w) by reflexivity.
  assert (Ht2 : trace w2 = trace w) by reflexivity.
  assert (Hf2 : faults w2 = tl (faults w)) by reflexivity.
  destruct (inbuf w2) as [|b l] eqn:Hbuf.
  - (* nothing to read: sleep and poll again *)
    set (ws := set_clock (clock w + 100) (log (EvSleep 100) w2)).
    destruct (IH out start ws) as (r & w' & evs & Hrun & Htr & Hpoll & Hecho & Hclk & Hok & Hret).
    + change (channel_bytes ws) with (channel_bytes w2). rewrite Hb2.
      unfold polls_left in *. change (clock ws) with (clock w + 100).
      replace (start + 30000 - (clock w + 100) + 99) with ((start + 30000 - clock w + 99) + (-1) * 100) by lia.
      rewrite Z.div_add by lia.
      assert (1 <= (start + 30000 - clock w + 99) / 100) by (apply Z.div_le_lower_bound; lia).
      lia.
    + change (clock ws) with (clock w + 100). lia.
    + exists r, w', ((clock w, EvSleep 100) :: evs).
      split; [exact Hrun|].
      split; [rewrite Htr; unfold ws; proj; rewrite <- app_assoc; reflexivity|].
      split; [constructor; [reflexivity|exact Hpoll]|].
      split; [exact Hecho|].
      split; [change (clock ws) with (clock w + 100) in Hclk; lia|].
      split.
      * intros Hnil. apply Hok. change (faults ws) with (tl (faults w)). now rewrite Hnil.
      * intros o Ho. destruct (Hret o Ho) as (Hout & Hend & Hexact).
        split; [exact Hout|]. split; [exact Hend|].
        intros [k [Hk Hal]]. cbn [last_reset]. apply Hexact.
        exists (k + 1). change (clock ws) with (clock w + 100). lia.
  - (* data is ready *)
    rewrite Hf2.
    destruct (hd None (tl (faults w))) as [e|] eqn:Hf3.
    { exists (Raise e), (set_faults (tl (tl (faults w))) w2), []. proj. rewrite app_nil_r.
    split; [reflexivity|]. split; [reflexivity|].
    split; [constructor|]. split; [exact I|]. split; [lia|].
    split; [intros Hnil; rewrite Hnil in Hf3; discriminate|discriminate]. }
    set (data := firstn chunk_size (b :: l)).
    set (w4 := log (EvPrint (decode_ignore data))
                 (log (EvRecv data)
                    (set_channel (skipn chunk_size (b :: l)) (pending w2)
                       (set_faults (tl (tl (faults w))) w2)))).
    destruct (IH (out ++ decode_ignore data) (clock w) w4)
      as (r & w' & evs & Hrun & Htr & Hpoll & Hecho & Hclk & Hok & Hret).
    + assert (channel_bytes w4 < channel_bytes w2)%nat.
      { unfold channel_bytes, w4; proj. rewrite Hbuf, length_skipn. simpl length. pose proof chunk_size_pos. lia. }
      assert (polls_left (clock w) w4 = 300%nat).
      { unfold polls_left. change (clock w4) with (clock w).
        replace (clock w + 30000 - clock w + 99) with 30099 by lia. reflexivity. }
      lia.
    + change (clock w4) with (clock w). lia.
    + exists r, w', ((clock w, EvRecv data) :: (clock w, EvPrint (decode_ignore data)) :: evs).
      split; [exact Hrun|].
      split; [rewrite Htr; unfold w4; proj; rewrite <- !app_assoc; reflexivity|].
      split; [repeat constructor; exact Hpoll|].
      split; [cbn [echoed]; split; [reflexivity|exact Hecho]|].
      split; [change (clock w4) with (clock w) in Hclk; lia|].
      split.
      * intros Hnil. apply Hok. change (faults w4) with (tl (tl (faults w))). now rewrite Hnil.
      * intros o Ho. destruct (Hret o Ho) as (Hout & Hend & Hexact).
        change (clock w4) with (clock w) in *.
        split; [rewrite Hout; cbn [collected_in]; now rewrite app_assoc|].
        split; [lia|].
        intros _. cbn [last_reset]. apply Hexact. exists 0. lia.
Qed.

Lemma collect_run w :
  exists r w' evs,
    collect w = Some (r, w') /\
    trace w' = trace w ++ evs /\
    Forall polling evs /\ echoed evs /\
    clock w <= clock w' /\
    (faults w = [] -> is_ret r = true /\ faults w' = []) /\
    (forall o, r = Ret o ->
       o = collected_in evs /\
       clock w + 30000 <= clock w' /\
       clock w' = last_reset (clock w) evs + 30000).
Proof.
  destruct (collect_loop_run (collect_fuel w) [] (clock w) w)
    as (r & w' & evs & Hrun & Htr & Hpoll & Hecho & Hclk & Hok & Hret).
  - unfold collect_fuel, polls_left.
    replace (clock w + 30000 - clock w + 99) with 30099 by lia.
    change (Z.to_nat (30099 / 100)) with 300%nat. lia.
  - lia.
  - exists r, w', evs. repeat (split; [assumption|]).
    intros o Ho. destruct (Hret o Ho) as (Hout & Hend & Hexact).
    split; [exact Hout|]. split; [exact Hend|].
    apply Hexact. exists 0. lia.
Qed.

Lemma drain_loop_unfold fuel w :
  drain_loop (S fuel) w =
  let w1 := set_faults (tl (faults w)) w in
  match hd None (faults w) with
  | Some e => Some (Raise e, w1)
  | None =>
      let w2 := deliver w1 in
      match inbuf w2 with
      | [] => Some (Ret tt, w2)
      | buf =>
          let w3 := set_faults (tl (faults w2)) w2 in
          match hd None (faults w2) with
          | Some e => Some (Raise e, w3)
          | None =>
              drain_loop fuel
                (log (EvRecv (firstn chunk_size buf)) (set_channel (skipn chunk_size buf) (pending w2) w3))
          end
      end
  end.
Proof.
  cbn [drain_loop]. unfold bind at 1. unfold recv_ready at 1. unfold bind at 1.
  unfold fault_check at 1. cbv zeta.
  destruct (hd None (faults w)); [reflexivity|].
  set (w2 := deliver (set_faults (tl (faults w)) w)).
  destruct (inbuf w2) as [|b l] eqn:Hbuf; cbn [is_empty negb]; [reflexivity|].
  unfold bind at 1. unfold recv at 1. unfold bind at 1. unfold fault_check at 1.
  cbv zeta.
  destruct (hd None (faults w2)); [reflexivity|].
  pose proof (deliver_again (tl (faults w2)) (set_faults (tl (faults w)) w)) as Hd.
  fold w2 in Hd. rewrite !Hd.
  cbn [inbuf set_faults]. rewrite Hbuf. reflexivity.
Qed.

Lemma drain_loop_run : forall fuel w,
  (channel_bytes w < fuel)%nat ->
  exists r w' chunks,
    drain_loop fuel w = Some (r, w') /\
    trace w' = trace w ++ map (fun d => (clock w, EvRecv d)) chunks /\
    clock w' = clock w /\
    (faults w = [] -> r = Ret tt /\ faults w' = []) /\
    (r = Ret tt -> inbuf w' = [] /\ Forall (fun p => clock w < fst p) (pending w')).
Proof.
  induction fuel as [|fuel IH]; intros w Hfuel; [lia|].
  rewrite drain_loop_unfold. cbv zeta.
  destruct (hd None (faults w)) as [e|] eqn:Hf1.
  { exists (Raise e), (set_faults (tl (faults w)) w), []. cbn [map]. rewrite app_nil_r.
    split; [reflexivity|]. split; [reflexivity|]. split; [reflexivity|].
    split; [intros Hnil; rewrite Hnil in Hf1; discriminate|discriminate]. }
  set (w2 := deliver (set_faults (tl (faults w)) w)).
  assert (Hb2 : channel_bytes w2 = channel_bytes w)
    by (unfold w2; now rewrite deliver_bytes).
  destruct (inbuf w2) as [|b l] eqn:Hbuf.
  - exists (Ret tt), w2, []. cbn [map]. rewrite app_nil_r.
    split; [reflexivity|]. split; [reflexivity|]. split; [reflexivity|].
    split.
    + intros Hnil. split; [reflexivity|].
      change (faults w2) with (tl (faults w)). now rewrite Hnil.
    + intros _. split; [exact Hbuf|].
      pose proof (settled_deliver (set_faults (tl (faults w)) w)) as Hs.
      fold w2 in Hs. unfold settled in Hs.
      eapply Forall_impl; [|exact Hs].
      intros p Hp. unfold arrived in Hp. apply Z.leb_gt in Hp. exact Hp.
  - change (faults w2) with (tl (faults w)).
    destruct (hd None (tl (faults w))) as [e|] eqn:Hf3.
    { exists (Raise e), (set_faults (tl (tl (faults w))) w2), []. cbn [map]. rewrite app_nil_r.
      split; [reflexivity|]. split; [reflexivity|]. split; [reflexivity|].
      split; [intros Hnil; rewrite Hnil in Hf3; discriminate|discriminate]. }
    set (data := firstn chunk_size (b :: l)).
    set (w4 := log (EvRecv data)
                 (set_channel (skipn chunk_size (b :: l)) (pending w2)
                    (set_faults (tl (tl (faults w))) w2))).
    destruct (IH w4) as (r & w' & chunks & Hrun & Htr & Hclk & Hok & Hret).
    + assert (channel_bytes w4 < channel_bytes w2)%nat.
      { unfold channel_bytes, w4; proj. rewrite Hbuf, length_skipn. simpl length. pose proof chunk_size_pos. lia. }
      lia.
    + change (clock w4) with (clock w) in *.
      exists r, w', (data :: chunks).
      split; [exact Hrun|].
      split; [rewrite Htr; unfold w4; proj; cbn [map]; rewrite <- app_assoc; reflexivity|].
      split; [exact Hclk|].
      split; [|exact Hret].
      intros Hnil. apply Hok. change (faults w4) with (tl (tl (faults w))). now rewrite Hnil.
Qed.

Lemma drain_banner_run w :
  exists r w' chunks,
    drain_banner w = Some (r, w') /\
    trace w' = trace w ++ map (fun d => (clock w, EvRecv d)) chunks /\
    clock w' = clock w /\
    (faults w = [] -> r = Ret tt /\ faults w' = []) /\
    (r = Ret tt -> inbuf w' = [] /\ Forall (fun p => clock w < fst p) (pending w')).
Proof. apply drain_loop_run. lia. Qed.

(** ** Stepping through straight-line code *)

Section Steps.

Variable Q : Z * Op -> Prop.

Lemma steps_ret {A} (a : A) : steps Q (ret a).
Proof. intros w. exists (Ret a), w, []. now rewrite app_nil_r. Qed.

Lemma steps_raise {A} (e : Exn) : steps Q (@raise A e).
Proof. intros w. exists (Raise e), w, []. now rewrite app_nil_r. Qed.

Lemma steps_bind {A B} (m : M A) (f : A -> M B) :
  steps Q m -> (forall a, steps Q (f a)) -> steps Q (bind m f).
Proof.
  intros Hm Hf w. unfold bind.
  destruct (Hm w) as (r & w1 & evs1 & -> & Htr1 & HQ1).
  destruct r as [a|e].
  - destruct (Hf a w1) as (r2 & w2 & evs2 & -> & Htr2 & HQ2).
    exists r2, w2, (evs1 ++ evs2). split; [reflexivity|].
    split; [now rewrite Htr2, Htr1, app_assoc|now apply Forall_app].
  - now exists (Raise e), w1, evs1.
Qed.

Lemma steps_effect (op : Op) : (forall t, Q (t, op)) -> steps Q (effect op).
Proof.
  intros HQ w. exists (Ret tt), (log op w), [(clock w, op)].
  repeat split. constructor; [apply HQ|constructor].
Qed.

Lemma steps_fault_check : steps Q fault_check.
Proof.
  intros w. unfold fault_check.
  destruct (hd None (faults w)) as [e|];
    [exists (Raise e)|exists (Ret tt)];
    exists (set_faults (tl (faults w)) w), []; proj; now rewrite app_nil_r.
Qed.

Lemma steps_transport (op : Op) : (forall t, Q (t, op)) -> steps Q (transport op).
Proof.
  intros HQ. apply steps_bind; [apply steps_fault_check|intros _; now apply steps_effect].
Qed.

Lemma steps_sleep (ms : Z) : (forall t, Q (t, EvSleep ms)) -> steps Q (sleep ms).
Proof.
  intros HQ w. exists (Ret tt), (set_clock (clock w + ms) (log (EvSleep ms) w)),
    [(clock w, EvSleep ms)].
  repeat split. constructor; [apply HQ|constructor].
Qed.

Lemma steps_sftp_get (remote_path local_path : pystr) :
  (forall t, Q (t, EvGet remote_path local_path)) -> steps Q (sftp_get remote_path local_path).
Proof.
  intros HQ w. unfold sftp_get, bind, fault_check. proj.
  destruct (hd None (faults w)) as [e|].
  - eexists (Raise e), _, []. split; [reflexivity|]. proj. now rewrite app_nil_r.
  - proj. destruct (lookup_file remote_path (remote_fs w)) as [content|].
    + eexists _, _, [(clock w, EvGet remote_path local_path)].
      split; [reflexivity|]. split; [reflexivity|]. constructor; [apply HQ|constructor].
    + eexists (Raise (lit "[Errno 2] No such file")), _, [].
      split; [reflexivity|]. proj. now rewrite app_nil_r.
Qed.

Lemma steps_stream_read (s : Stream) : (forall t, Q (t, EvRead s)) -> steps Q (stream_read s).
Proof.
  intros HQ. apply steps_bind; [now apply steps_transport|intros _ w].
  eexists _, w, []. now rewrite app_nil_r.
Qed.

Lemma steps_decode (bs : list byte) : steps Q (decode bs).
Proof.
  unfold decode. destruct (decode_strict bs); [apply steps_ret|apply steps_raise].
Qed.

End Steps.

Lemma steps_mono {A} (P Q : Z * Op -> Prop) (m : M A) :
  (forall e, P e -> Q e) -> steps P m -> steps Q m.
Proof.
  intros HPQ Hm w. destruct (Hm w) as (r & w' & evs & Hrun & Htr & HP).
  exists r, w', evs. split; [exact Hrun|]. split; [exact Htr|].
  eapply Forall_impl; [exact HPQ|exact HP].
Qed.

Lemma quiet_not_close e : quiet e -> not_close e.
Proof. destruct e as [t op]. unfold quiet, not_close. now destruct op. Qed.

Lemma polling_quiet e : polling e -> quiet e.
Proof. destruct e as [t op]. unfold quiet, polling. now destruct op. Qed.

(** Straight-line code: split the sequence and close each call. *)
Ltac step_through :=
  repeat first
    [ apply steps_ret
    | apply steps_effect; intros; first [exact I | reflexivity]
    | apply steps_transport; intros; first [exact I | reflexivity]
    | apply steps_sleep; intros; first [exact I | reflexivity]
    | apply steps_sftp_get; intros; first [exact I | reflexivity]
    | apply steps_stream_read; intros; first [exact I | reflexivity]
    | apply steps_decode
    | apply steps_fault_check
    | apply steps_bind; [|intros] ].

Lemma download_body_quiet host username password remote_path local_path :
  steps quiet (Download.download_body host username password remote_path local_path).
Proof. unfold Download.download_body, print, client_connect. step_through. Qed.

Lemma show_quiet header text : steps quiet (Runner.show header text).
Proof. unfold Runner.show, print. destruct (is_empty text); step_through. Qed.

Lemma run_body_quiet host username password command :
  steps quiet (Runner.run_body host username password command).
Proof.
  unfold Runner.run_body, print, client_connect.
  step_through; apply show_quiet.
Qed.

Lemma open_shell_quiet host username password timeout :
  steps quiet (open_shell host username password timeout).
Proof. unfold open_shell, print, client_connect. step_through. Qed.

(** ** Reading the trace: sums over appended effects *)

Lemma closes_in_app a b : closes_in (a ++ b) = (closes_in a + closes_in b)%nat.
Proof. unfold closes_in. now rewrite filter_app, length_app. Qed.

Lemma sends_in_app a b : sends_in (a ++ b) = sends_in a ++ sends_in b.
Proof.
  induction a as [|[t op] a IH]; [reflexivity|].
  destruct op; cbn [sends_in app]; now rewrite ?IH.
Qed.

Lemma not_close_closes evs : Forall not_close evs -> closes_in evs = 0%nat.
Proof.
  induction 1 as [|e evs He _ IH]; [reflexivity|].
  unfold closes_in in *. cbn [filter]. unfold not_close in He. now rewrite He.
Qed.

Lemma quiet_sends evs : Forall quiet evs -> sends_in evs = [].
Proof.
  induction 1 as [|[t op] evs He _ IH]; [reflexivity|].
  destruct op; cbn [sends_in]; try exact IH. destruct He.
Qed.

Lemma recvs_quiet t chunks : Forall quiet (map (fun d => (t, EvRecv d)) chunks).
Proof. apply Forall_forall. intros e He. apply in_map_iff in He. now destruct He as (d & <- & _). Qed.

(** A chunk is printed as soon as it is received and nothing else is
    printed, so the console shows exactly what the accumulator holds. *)
Lemma echoed_printed : forall n evs,
  (length evs <= n)%nat -> echoed evs -> printed_in evs = collected_in evs.
Proof.
  induction n as [|n IH]; intros evs Hlen Hecho.
  - destruct evs; [reflexivity|simpl in Hlen; lia].
  - destruct evs as [|[t op] evs]; [reflexivity|].
    destruct op; cbn [echoed] in Hecho; try (destruct Hecho; fail);
      try (cbn [printed_in collected_in]; apply IH; [simpl in Hlen; lia|exact Hecho]).
    destruct evs as [|[t' op'] evs]; [destruct Hecho|].
    destruct op'; try (destruct Hecho; fail).
    destruct Hecho as [-> Hecho].
    cbn [printed_in collected_in]. f_equal.
    apply IH; [simpl in Hlen; lia|exact Hecho].
Qed.

(** ** One command of the queue *)

Lemma run_one_unfold cmd w :
  run_one cmd w =
  let w1 := set_faults (tl (faults w)) (log (EvPrint ((newline ++ lit ">>> Running: " ++ cmd) ++ newline)) w) in
  match hd None (faults w) with
  | Some e => Some (Raise e, w1)
  | None => collect (set_clock (clock w + 2000) (log (EvSleep 2000) (log (EvSend (cmd ++ newline)) w1)))
  end.
Proof.
  unfold run_one, print, send, transport, sleep, effect, fault_check, bind.
  proj. now destruct (hd None (faults w)).
Qed.

Lemma run_one_run cmd w :
  exists r w' evs,
    run_one cmd w = Some (r, w') /\
    trace w' = trace w ++ evs /\
    Forall not_close evs /\
    clock w <= clock w' /\
    (faults w = [] -> is_ret r = true /\ faults w' = []) /\
    (forall o, r = Ret o -> o = collected_in evs) /\
    ((sends_in evs = [] /\ is_ret r = false) \/
     (sends_in evs = [(clock w, cmd ++ newline)] /\
      (is_ret r = true -> clock w + 32000 <= clock w'))).
Proof.
  rewrite run_one_unfold. cbv zeta.
  set (banner := (newline ++ lit ">>> Running: " ++ cmd) ++ newline).
  destruct (hd None (faults w)) as [e|] eqn:Hf.
  - exists (Raise e), (set_faults (tl (faults w)) (log (EvPrint banner) w)),
      [(clock w, EvPrint banner)].
    split; [reflexivity|]. split; [reflexivity|].
    split; [repeat constructor|]. split; [proj; lia|].
    split; [intros Hnil; rewrite Hnil in Hf; discriminate|].
    split; [discriminate|]. left. now split.
  - set (w3 := set_clock (clock w + 2000)
                 (log (EvSleep 2000)
                    (log (EvSend (cmd ++ newline))
                       (set_faults (tl (faults w)) (log (EvPrint banner) w))))).
    destruct (collect_run w3)
      as (r & w' & evs & Hrun & Htr & Hpoll & Hecho & Hclk & Hok & Hret).
    change (clock w3) with (clock w + 2000) in *.
    assert (Hquiet : Forall quiet evs)
      by (eapply Forall_impl; [exact polling_quiet|exact Hpoll]).
    exists r, w',
      ((clock w, EvPrint banner) :: (clock w, EvSend (cmd ++ newline))
         :: (clock w, EvSleep 2000) :: evs).
    split; [exact Hrun|].
    split; [rewrite Htr; unfold w3; proj; rewrite <- !app_assoc; reflexivity|].
    split.
    { repeat (constructor; [reflexivity|]).
      eapply Forall_impl; [exact quiet_not_close|exact Hquiet]. }
    split; [lia|].
    split; [intros Hnil; apply Hok; change (faults w3) with (tl (faults w)); now rewrite Hnil|].
    split; [intros o Ho; now destruct (Hret o Ho) as [-> _]|].
    right. cbn [sends_in]. rewrite (quiet_sends evs Hquiet).
    split; [reflexivity|].
    intros Hr. destruct r as [o|]; [|discriminate].
    destruct (Hret o eq_refl) as (_ & Hend & _). lia.
Qed.

(** ** The queue *)

Lemma spaced_cons gap t times :
  Forall (fun t' => t + gap <= t') times -> spaced gap times -> spaced gap (t :: times).
Proof.
  intros Hall Hsp. destruct times as [|b rest]; [exact I|].
  cbn [spaced]. split; [now inversion Hall|exact Hsp].
Qed.

Lemma run_commands_run : forall commands w,
  exists r w' evs k,
    run_commands commands w = Some (r, w') /\
    trace w' = trace w ++ evs /\
    Forall not_close evs /\
    clock w <= clock w' /\
    (faults w = [] -> is_ret r = true /\ faults w' = []) /\
    map snd (sends_in evs) = map (fun c => c ++ newline) (firstn k commands) /\
    Forall (fun t => clock w <= t) (map fst (sends_in evs)) /\
    spaced 32000 (map fst (sends_in evs)) /\
    (is_ret r = true -> k = length commands).
Proof.
  induction commands as [|cmd rest IH]; intros w.
  - exists (Ret tt), w, [], 0%nat. rewrite app_nil_r.
    repeat split; auto; try lia; constructor.
  - cbn [run_commands]. unfold bind.
    destruct (run_one_run cmd w)
      as (r1 & w1 & evs1 & -> & Htr1 & Hnc1 & Hclk1 & Hok1 & _ & Hsend1).
    destruct r1 as [o|e].
    + destruct Hsend1 as [[_ Hbad]|[Hs1 Hgap]]; [discriminate|].
      specialize (Hgap eq_refl).
      destruct (IH w1) as (r & w' & evs & k & -> & Htr & Hnc & Hclk & Hok & Hsent & Hafter & Hsp & Hall).
      exists r, w', (evs1 ++ evs), (S k).
      split; [reflexivity|].
      split; [now rewrite Htr, Htr1, app_assoc|].
      split; [now apply Forall_app|].
      split; [lia|].
      split; [intros Hnil; apply Hok; now apply Hok1|].
      rewrite sends_in_app, Hs1. cbn [app map fst snd firstn].
      split; [now rewrite Hsent|].
      split.
      { constructor; [lia|]. eapply Forall_impl; [|exact Hafter]. cbv beta. intros; lia. }
      split.
      { apply spaced_cons; [|exact Hsp].
        eapply Forall_impl; [|exact Hafter]. cbv beta. intros; lia. }
      intros Hr. cbn [length]. now rewrite (Hall Hr).
    + destruct Hsend1 as [[Hs1 _]|[Hs1 _]].
      * exists (Raise e), w1, evs1, 0%nat.
        split; [reflexivity|]. split; [exact Htr1|]. split; [exact Hnc1|].
        split; [exact Hclk1|].
        split; [intros Hnil; now destruct (Hok1 Hnil)|].
        rewrite Hs1. repeat split; try constructor. discriminate.
      * exists (Raise e), w1, evs1, 1%nat.
        split; [reflexivity|]. split; [exact Htr1|]. split; [exact Hnc1|].
        split; [exact Hclk1|].
        split; [intros Hnil; now destruct (Hok1 Hnil)|].
        rewrite Hs1. cbn [map fst snd firstn].
        repeat split; try (constructor; try lia; constructor). discriminate.
Qed.

(** ** [try] / [except] / [finally] *)

Lemma guarded_run {A} (body : M A) (fail : Exn -> A) w r w1 :
  body (log EvHostKeyPolicy w) = Some (r, w1) ->
  guarded body fail w = Some (after_try fail r w1).
Proof.
  intros Hbody. unfold guarded, bind, effect, try_finally, try_except.
  rewrite Hbody. now destruct r.
Qed.

Lemma download_file_guarded host username password remote_path local_path :
  Download.download_file host username password remote_path local_path =
  guarded (Download.download_body host username password remote_path local_path)
          (fun _ => false).
Proof. reflexivity. Qed.

Lemma run_ssh_command_guarded host username password command :
  Runner.run_ssh_command host username password command =
  guarded (Runner.run_body host username password command) (fun e => (None, e)).
Proof. reflexivity. Qed.

Lemma run_interactive_ssh_guarded host username password commands timeout :
  run_interactive_ssh host username password commands timeout =
  guarded (interactive_body host username password commands timeout) (fun _ => false).
Proof. reflexivity. Qed.

(** A [try] block that never closes the connection itself leaves exactly
    the one call of the [finally] block. *)
Lemma guarded_closes_once {A} (body : M A) (fail : Exn -> A) :
  steps not_close body ->
  forall w, exists r w', guarded body fail w = Some (r, w') /\ closes w' = S (closes w).
Proof.
  intros Hbody w.
  destruct (Hbody (log EvHostKeyPolicy w)) as (r & w1 & evs & Hrun & Htr & Hnc).
  rewrite (guarded_run body fail w r w1 Hrun).
  exists (fst (after_try fail r w1)), (snd (after_try fail r w1)).
  split; [now destruct (after_try fail r w1)|].
  apply not_close_closes in Hnc.
  unfold closes. destruct r; cbn [after_try snd log trace]; rewrite Htr;
    cbn [log trace]; rewrite !closes_in_app, Hnc; cbn; lia.
Qed.

Lemma drain_banner_quiet : steps quiet drain_banner.
Proof.
  intros w. destruct (drain_banner_run w) as (r & w' & chunks & Hrun & Htr & _).
  exists r, w', (map (fun d => (clock w, EvRecv d)) chunks).
  split; [exact Hrun|]. split; [exact Htr|apply recvs_quiet].
Qed.

Lemma run_commands_not_close commands : steps not_close (run_commands commands).
Proof.
  intros w. destruct (run_commands_run commands w) as (r & w' & evs & _ & Hrun & Htr & Hnc & _).
  now exists r, w', evs.
Qed.

Lemma interactive_body_not_close host username password commands timeout :
  steps not_close (interactive_body host username password commands timeout).
Proof.
  unfold interactive_body.
  apply steps_bind; [|intros _; apply steps_bind; [|intros _; apply steps_bind]].
  - eapply steps_mono; [exact quiet_not_close|apply open_shell_quiet].
  - eapply steps_mono; [exact quiet_not_close|apply drain_banner_quiet].
  - apply run_commands_not_close.
  - intros _. apply steps_ret.
Qed.

(** * The claims *)

(** C2. Each of the three entry points ([download_file], [run_ssh_command],
    [run_interactive_ssh]) calls [client.close()] exactly once, whatever the
    transport does: on a normal return and on every path where a call of
    the [try] block raises. *)
Theorem connection_closed_exactly_once :
  forall (host username password remote_path local_path command : pystr)
         (commands : list pystr) (timeout : Z) (w : World),
    (exists r w',
        Download.download_file host username password remote_path local_path w = Some (r, w')
        /\ closes w' = S (closes w)) /\
    (exists r w',
        Runner.run_ssh_command host username password command w = Some (r, w')
        /\ closes w' = S (closes w)) /\
    (exists r w',
        run_interactive_ssh host username password commands timeout w = Some (r, w')
        /\ closes w' = S (closes w)).
Proof.
  intros. split; [|split].
  - rewrite download_file_guarded. apply guarded_closes_once.
    eapply steps_mono; [exact quiet_not_close|apply download_body_quiet].
  - rewrite run_ssh_command_guarded. apply guarded_closes_once.
    eapply steps_mono; [exact quiet_not_close|apply run_body_quiet].
  - rewrite run_interactive_ssh_guarded. apply guarded_closes_once.
    apply interactive_body_not_close.
Qed.

Lemma download_body_value host username password remote_path local_path w b w1 :
  Download.download_body host username password remote_path local_path w = Some (Ret b, w1) ->
  b = true.
Proof.
  unfold Download.download_body, print, client_connect, transport, sftp_get, effect,
    fault_check, bind, ret.
  proj. intros H.
  repeat match type of H with
         | context [match ?x with _ => _ end] => destruct x; try discriminate
         end.
  now inversion H.
Qed.


(** The [try] block of [run_ssh_command] ends normally only after both
    streams were read to their end and decoded; the prints come last. *)
Lemma run_body_ret host username password command w v w1 :
  Runner.run_body host username password command w = Some (Ret v, w1) ->
  exists output errors,
    v = (Some output, errors) /\
    decode_strict (remote_stdout w) = Some output /\
    decode_strict (remote_stderr w) = Some errors /\
    clock w1 = clock w /\
    trace w1 = trace w
               ++ [(clock w, EvPrint ((lit "Connecting to " ++ host ++ lit "...") ++ newline));
                   (clock w, EvConnect host username password false false 30);
                   (clock w, EvPrint (lit "Connected!" ++ newline));
                   (clock w, EvExec command 300);
                   (clock w, EvRead Stdout);
                   (clock w, EvRead Stderr)]
               ++ shown (clock w) (lit "STDOUT:") output
               ++ shown (clock w) (lit "STDERR:") errors.
Proof.
  unfold Runner.run_body, Runner.show, print, client_connect, stream_read, transport,
    decode, effect, fault_check, bind, ret, raise, shown.
  intros H. proj_in H.
  repeat (match type of H with
          | context [hd None ?x] => destruct (hd None x); try discriminate
          | context [decode_strict ?x] => destruct (decode_strict x) eqn:?; try discriminate
          | context [is_empty ?x] => destruct (is_empty x) eqn:?
          end; proj_in H).
  all: inversion H; subst; clear H; proj.
  all: eexists _, _; (split; [reflexivity|]); (split; [reflexivity|]); (split; [reflexivity|]).
  all: split; [reflexivity|].
  all: rewrite <- ?app_assoc; cbn [app].
  all: repeat match goal with
              | E : is_empty _ = _ |- _ => rewrite E; clear E
              end.
  all: reflexivity.
Qed.


(** C9. With exactly one command-line argument the file fetcher ignores it:
    remote and local path are the built-in defaults, and the run is the run
    without arguments. *)
Theorem download_single_argument_ignored :
  forall (script script' arg : pystr) (w : World),
    Download.main_paths [script; arg]
      = (Download.default_remote_path, Download.default_local_path) /\
    Download.main_paths [script']
      = (Download.default_remote_path, Download.default_local_path) /\
    Download.main [script; arg] w = Download.main [script'] w /\
    Download.main [script; arg] w
      = (Download.download_file Download.host Download.username Download.password
           (lit "/tmp/sim_screenshot3.png")
           (lit "C:/Users/snpsa/love-ledger/scripts/sim_screenshot3.png") ;; ret tt) w.
Proof. intros. repeat split. Qed.

(** ** The command runner's arguments *)

Lemma guarded_steps {A} Q (body : M A) (fail : Exn -> A) :
  (forall t, Q (t, EvHostKeyPolicy)) -> (forall t s, Q (t, EvPrint s)) ->
  (forall t, Q (t, EvClose)) ->
  steps Q body -> steps Q (guarded body fail).
Proof.
  intros Hpolicy Hprint Hclose Hbody w.
  destruct (Hbody (log EvHostKeyPolicy w)) as (r & w1 & evs & Hrun & Htr & HQ).
  rewrite (guarded_run body fail w r w1 Hrun).
  destruct r as [a|e]; cbn [after_try].
  - exists (Ret a), (log EvClose w1), ((clock w, EvHostKeyPolicy) :: evs ++ [(clock w1, EvClose)]).
    split; [reflexivity|].
    split; [proj; rewrite Htr; proj; now rewrite <- !app_assoc|].
    constructor; [apply Hpolicy|]. apply Forall_app. split; [exact HQ|].
    constructor; [apply Hclose|constructor].
  - eexists (Ret (fail e)), _,
      ((clock w, EvHostKeyPolicy) :: evs ++ [(clock w1, EvPrint _); (clock w1, EvClose)]).
    split; [reflexivity|].
    split; [proj; rewrite Htr; proj; now rewrite <- !app_assoc|].
    constructor; [apply Hpolicy|]. apply Forall_app. split; [exact HQ|].
    constructor; [apply Hprint|]. constructor; [apply Hclose|constructor].
Qed.

Lemma show_executes_only command header text :
  steps (executes_only command) (Runner.show header text).
Proof. unfold Runner.show, print. destruct (is_empty text); step_through. Qed.

Lemma run_ssh_command_executes_only host username password command :
  steps (executes_only command) (Runner.run_ssh_command host username password command).
Proof.
  rewrite run_ssh_command_guarded.
  apply guarded_steps; try (intros; exact I).
  unfold Runner.run_body, print, client_connect.
  step_through; apply show_executes_only.
Qed.

Lemma join_length sep first second :
  length (join sep [first; second]) = (length first + length sep + length second)%nat.
Proof. cbn [join]. rewrite !length_app. lia. Qed.

(** C4, as stated, fails: run as [ssh_mac.py ls -la], the script executes
    [ls], which is no joining of the two arguments under any separator. *)
Lemma runner_arguments_not_joined :
  Runner.main_command argv_ls_la = lit "ls" /\
  (exists w', Runner.main argv_ls_la idle = Some (Ret tt, w') /\
              executed_in (trace w') = [lit "ls"]) /\
  forall sep, Runner.main_command argv_ls_la <> join sep (tl argv_ls_la).
Proof.
  split; [reflexivity|]. split.
  - eexists. split; vm_compute; reflexivity.
  - intros sep Heq. apply (f_equal (@length N)) in Heq.
    cbn [tl argv_ls_la] in Heq. rewrite join_length in Heq.
    change (length (Runner.main_command argv_ls_la)) with 2%nat in Heq.
    change (length (lit "ls")) with 2%nat in Heq.
    change (length (lit "-la")) with 3%nat in Heq. lia.
Qed.

(** C4, amended.  The command runner executes its first command-line
    argument alone, whatever follows it, and [pwd && ls -la] when there is
    none; no other command is handed to the remote side. *)
Theorem runner_executes_first_argument :
  forall (script first : pystr) (rest : list pystr) (w : World),
    Runner.main_command (script :: first :: rest) = first /\
    Runner.main_command [script] = lit "pwd && ls -la" /\
    Runner.main (script :: first :: rest) w
      = (Runner.run_ssh_command Runner.host Runner.username Runner.password first ;; ret tt) w /\
    Runner.main [script] w
      = (Runner.run_ssh_command Runner.host Runner.username Runner.password
           (lit "pwd && ls -la") ;; ret tt) w /\
    exists r w' evs,
      Runner.main (script :: first :: rest) w = Some (r, w') /\
      trace w' = trace w ++ evs /\
      Forall (executes_only first) evs.
Proof.
  intros. repeat (split; [reflexivity|]).
  change (Runner.main (script :: first :: rest))
    with (Runner.run_ssh_command Runner.host Runner.username Runner.password first ;; ret tt).
  assert (H : steps (executes_only first)
                (Runner.run_ssh_command Runner.host Runner.username Runner.password first ;;
                 ret tt)).
  { apply steps_bind; [apply run_ssh_command_executes_only|intros; apply steps_ret]. }
  apply H.
Qed.

(** ** The interactive session *)

(** With a transport that does not fail, the shell is ready one second
    after it was allocated. *)
Lemma open_shell_ok host username password timeout w :
  faults w = [] ->
  exists w1,
    open_shell host username password timeout w = Some (Ret tt, w1) /\
    faults w1 = [] /\
    clock w1 = clock w + 1000 /\
    inbuf w1 = inbuf w /\
    pending w1 = pending w /\
    trace w1 = trace w
               ++ [(clock w, EvPrint ((lit "Connecting to " ++ host ++ lit "...") ++ newline));
                   (clock w, EvConnect host username password false false 30);
                   (clock w, EvPrint (lit "Connected!" ++ newline));
                   (clock w, EvInvokeShell);
                   (clock w, EvSetTimeout timeout);
                   (clock w, EvSleep 1000)].
Proof.
  intros Hnil.
  unfold open_shell, print, client_connect, transport, sleep, effect, fault_check, bind.
  proj. rewrite Hnil. cbn [hd tl]. proj.
  eexists. split; [reflexivity|]. proj. rewrite <- !app_assoc.
  repeat split.
Qed.

Lemma interactive_body_run host username password commands timeout w :
  exists r w' evs k,
    interactive_body host username password commands timeout w = Some (r, w') /\
    trace w' = trace w ++ evs /\
    (faults w = [] -> is_ret r = true) /\
    (is_ret r = true -> r = Ret true) /\
    map snd (sends_in evs) = map (fun c => c ++ newline) (firstn k commands) /\
    spaced 32000 (map fst (sends_in evs)) /\
    (is_ret r = true -> k = length commands).
Proof.
  unfold interactive_body, bind.
  destruct (open_shell_quiet host username password timeout w)
    as (r1 & w1 & evs1 & Hrun1 & Htr1 & Hq1).
  assert (Hok1 : faults w = [] -> r1 = Ret tt /\ faults w1 = []).
  { intros Hnil.
    destruct (open_shell_ok host username password timeout w Hnil) as (w1' & Hrun1' & Hf & _).
    rewrite Hrun1 in Hrun1'. now inversion Hrun1'; subst. }
  rewrite Hrun1.
  destruct r1 as [[]|e].
  2:{ exists (Raise e), w1, evs1, 0%nat.
      split; [reflexivity|]. split; [exact Htr1|].
      split; [intros Hnil; now destruct (Hok1 Hnil)|].
      split; [discriminate|].
      rewrite (quiet_sends _ Hq1). repeat split. discriminate. }
  destruct (drain_banner_run w1) as (r2 & w2 & chunks & -> & Htr2 & _ & Hok2 & _).
  pose proof (recvs_quiet (clock w1) chunks) as Hq2.
  destruct r2 as [[]|e].
  2:{ exists (Raise e), w2, (evs1 ++ map (fun d => (clock w1, EvRecv d)) chunks), 0%nat.
      split; [reflexivity|]. split; [now rewrite Htr2, Htr1, app_assoc|].
      split.
      { intros Hnil. destruct (Hok1 Hnil) as [_ Hnil1]. now destruct (Hok2 Hnil1). }
      split; [discriminate|].
      rewrite sends_in_app, (quiet_sends _ Hq1), (quiet_sends _ Hq2).
      repeat split. discriminate. }
  destruct (run_commands_run commands w2)
    as (r3 & w3 & evs3 & k & -> & Htr3 & _ & _ & Hok3 & Hsent & _ & Hsp & Hall).
  assert (Hsends : sends_in ((evs1 ++ map (fun d => (clock w1, EvRecv d)) chunks) ++ evs3)
                   = sends_in evs3).
  { now rewrite !sends_in_app, (quiet_sends _ Hq1), (quiet_sends _ Hq2). }
  destruct r3 as [[]|e].
  - exists (Ret true), w3, ((evs1 ++ map (fun d => (clock w1, EvRecv d)) chunks) ++ evs3), k.
    split; [reflexivity|].
    split; [now rewrite Htr3, Htr2, Htr1, !app_assoc|].
    rewrite Hsends. repeat split; auto.
  - exists (Raise e), w3, ((evs1 ++ map (fun d => (clock w1, EvRecv d)) chunks) ++ evs3), k.
    split; [reflexivity|].
    split; [now rewrite Htr3, Htr2, Htr1, !app_assoc|].
    rewrite Hsends.
    split.
    { intros Hnil. destruct (Hok1 Hnil) as [_ Hnil1]. destruct (Hok2 Hnil1) as [_ Hnil2].
      now destruct (Hok3 Hnil2). }
    repeat split; auto. discriminate.
Qed.


(** ** A channel that stays silent *)

Lemma silent_loop : forall n fuel out start w,
  (n < fuel)%nat -> (n <= 300)%nat ->
  faults w = [] -> inbuf w = [] ->
  Forall (fun p => start + 30000 <= fst p) (pending w) ->
  clock w = start + 30000 - 100 * Z.of_nat n ->
  exists w',
    collect_loop fuel out start w = Some (Ret out, w') /\
    clock w' = start + 30000 /\
    faults w' = [] /\ inbuf w' = [] /\ pending w' = pending w.
Proof.
  induction n as [|n IH]; intros fuel out start w Hfuel Hn Hnil Hbuf Hpend Hclock;
    (destruct fuel as [|fuel]; [lia|]); rewrite collect_loop_unfold.
  - replace (clock w - start <? 30000) with false by (symmetry; apply Z.ltb_ge; lia).
    exists w. repeat split; auto. lia.
  - replace (clock w - start <? 30000) with true by (symmetry; apply Z.ltb_lt; lia).
    cbv zeta. rewrite Hnil. cbn [hd tl].
    assert (Hset : settled (set_faults [] w)).
    { unfold settled. proj. eapply Forall_impl; [|exact Hpend].
      intros p Hp. unfold arrived. apply Z.leb_gt. cbv beta in Hp. proj. lia. }
    rewrite (deliver_fixed _ Hset). proj. rewrite Hbuf.
    destruct (IH fuel out start
                (set_clock (clock w + 100) (log (EvSleep 100) (set_faults [] w))))
      as (w' & Hrun & Hend & Hf & Hi & Hp);
      proj; try assumption; try reflexivity; try lia.
    exists w'. repeat split; assumption.
Qed.

Lemma collect_silent w :
  faults w = [] -> inbuf w = [] ->
  Forall (fun p => clock w + 30000 <= fst p) (pending w) ->
  exists w',
    collect w = Some (Ret [], w') /\
    clock w' = clock w + 30000 /\
    faults w' = [] /\ inbuf w' = [] /\ pending w' = pending w.
Proof.
  intros Hnil Hbuf Hpend. unfold collect, bind, time_time.
  apply (silent_loop 300); try assumption; try lia.
  unfold collect_fuel. lia.
Qed.

Lemma run_one_silent cmd w :
  faults w = [] -> inbuf w = [] ->
  Forall (fun p => clock w + 32000 <= fst p) (pending w) ->
  exists w1,
    run_one cmd w = Some (Ret [], w1) /\
    clock w1 = clock w + 32000 /\
    faults w1 = [] /\ inbuf w1 = [] /\ pending w1 = pending w.
Proof.
  intros Hnil Hbuf Hpend.
  rewrite run_one_unfold. cbv zeta. rewrite Hnil. cbn [hd tl].
  set (w3 := set_clock (clock w + 2000) _).
  unfold collect, bind, time_time.
  destruct (silent_loop 300 (collect_fuel w3) [] (clock w3) w3)
    as (w1 & Hrun & Hend & Hf & Hi & Hp).
  - unfold collect_fuel. lia.
  - lia.
  - reflexivity.
  - exact Hbuf.
  - change (clock w3) with (clock w + 2000). change (pending w3) with (pending w).
    eapply Forall_impl; [|exact Hpend]. cbv beta. intros; lia.
  - lia.
  - exists w1. change (clock w3) with (clock w + 2000) in Hend.
    repeat split; auto. lia.
Qed.

(** A successful read inside the window starts a whole new window. *)
Lemma collect_loop_reset fuel out start w :
  faults w = [] -> start <= clock w -> clock w - start < 30000 ->
  inbuf (deliver w) <> [] -> (collect_fuel w <= fuel)%nat ->
  exists out' w',
    collect_loop fuel out start w = Some (Ret out', w') /\
    clock w + 30000 <= clock w'.
Proof.
  intros Hnil Hstart Hin Hready Hfuel.
  destruct fuel as [|fuel]; [unfold collect_fuel in Hfuel; lia|].
  rewrite collect_loop_unfold.
  replace (clock w - start <? 30000) with true by (symmetry; apply Z.ltb_lt; lia).
  cbv zeta. rewrite Hnil. cbn [hd tl].
  change (inbuf (deliver (set_faults [] w))) with (inbuf (deliver w)).
  destruct (inbuf (deliver w)) as [|b l] eqn:Hbuf; [contradiction|].
  change (faults (deliver (set_faults [] w))) with (@nil (option Exn)). cbn [hd tl].
  set (data := firstn chunk_size (b :: l)).
  set (w4 := log (EvPrint (decode_ignore data)) _).
  destruct (collect_loop_run fuel (out ++ decode_ignore data) (clock w) w4)
    as (r & w' & evs & Hrun & _ & _ & _ & _ & Hok & Hret).
  - assert (Hb : (channel_bytes w4 < channel_bytes w)%nat).
    { rewrite <- (deliver_bytes w). unfold channel_bytes, w4. proj.
      change (inbuf w ++ concat (map snd (filter (arrived (clock w)) (pending w))))
        with (inbuf (deliver w)).
      rewrite Hbuf, length_skipn. simpl length. pose proof chunk_size_pos. lia. }
    assert (Hp : polls_left (clock w) w4 = 300%nat).
    { unfold polls_left. change (clock w4) with (clock w).
      replace (clock w + 30000 - clock w + 99) with 30099 by lia. reflexivity. }
    unfold collect_fuel in Hfuel. lia.
  - change (clock w4) with (clock w). lia.
  - destruct (Hok eq_refl) as [Hr _].
    destruct r as [o|]; [|discriminate].
    destruct (Hret o eq_refl) as (_ & Hend & _).
    now exists o, w'.
Qed.


(** ** Decoding *)

Lemma all_wellformed_drop l s :
  all_wellformed l = Some s -> flat_map drop_malformed l = s.
Proof.
  revert s. induction l as [|[c|] l IH]; intros s H; cbn in *.
  - now inversion H.
  - destruct (all_wellformed l) as [s'|]; [|discriminate].
    inversion H; subst. now rewrite (IH s' eq_refl).
  - discriminate.
Qed.

Lemma decode_ignore_wellformed bs s : decode_strict bs = Some s -> decode_ignore bs = s.
Proof. apply all_wellformed_drop. Qed.

(** C5, as stated, fails: the chunk [ff 61] is printed and accumulated as
    the single letter a; the malformed byte is dropped, where replacing it
    would have given U+FFFD followed by a.  And a chunk received while the
    banner is drained is not printed at all: after the two connection
    messages the run on [world_banner] prints nothing. *)
Lemma malformed_bytes_dropped_not_replaced :
  (exists w',
      collect world_malformed = Some (Ret (lit "a"), w') /\
      firstn 2 (trace w') = [(0, EvRecv malformed_chunk); (0, EvPrint (lit "a"))] /\
      decode_replace malformed_chunk = [65533%N; 97%N] /\
      lit "a" <> decode_replace malformed_chunk) /\
  (exists w',
      run_interactive_ssh (lit "host") (lit "user") (lit "secret") [] 120 world_banner
        = Some (Ret true, w') /\
      In (1000, EvRecv [x68; x69]) (trace w') /\
      printed_in (skipn 4 (trace w')) = []).
Proof.
  split.
  - eexists. split; [vm_compute; reflexivity|].
    split; [vm_compute; reflexivity|].
    split; [reflexivity|]. vm_compute. discriminate.
  - eexists. split; [vm_compute; reflexivity|].
    split; [vm_compute; tauto|vm_compute; reflexivity].
Qed.

(** C5, amended.  Every chunk received in a command's collection loop is
    decoded with the malformed byte sequences dropped (text that is well
    formed is decoded as it stands); the decoded text is printed at once,
    nothing else is printed, and the accumulator the loop leaves is the
    concatenation of these texts.  Decoding never raises: when no transport
    call fails the loop ends normally. *)
Theorem chunks_decoded_printed_accumulated :
  (forall w, exists r w' evs,
      collect w = Some (r, w') /\
      trace w' = trace w ++ evs /\
      echoed evs /\
      printed_in evs = collected_in evs /\
      match r with Ret output => output = collected_in evs | Raise _ => True end /\
      (faults w = [] -> is_ret r = true)) /\
  (forall bs s, decode_strict bs = Some s -> decode_ignore bs = s).
Proof.
  split; [|exact decode_ignore_wellformed].
  intros w.
  destruct (collect_run w) as (r & w' & evs & Hrun & Htr & _ & Hecho & _ & Hok & Hret).
  exists r, w', evs.
  split; [exact Hrun|]. split; [exact Htr|]. split; [exact Hecho|].
  split; [exact (echoed_printed (length evs) evs (le_n _) Hecho)|].
  split.
  - destruct r as [o|]; [|exact I]. now destruct (Hret o eq_refl).
  - intros Hnil. now destruct (Hok Hnil).
Qed.

(** C6, as stated, fails: with the banner [hi] buffered when the shell is
    allocated at time 0, the driver first sleeps one second and reads the
    banner at time 1000. *)
Lemma banner_drained_after_one_second :
  exists w',
    run_interactive_ssh (lit "host") (lit "user") (lit "secret") [] 120 world_banner
      = Some (Ret true, w') /\
    skipn 4 (trace w')
      = [(0, EvInvokeShell); (0, EvSetTimeout 120); (0, EvSleep 1000);
         (1000, EvRecv [x68; x69]); (1000, EvClose)].
Proof. eexists. split; vm_compute; reflexivity. Qed.

(** C6, amended.  When no transport call fails, the driver waits one second
    after the shell is allocated and then drains the banner in a tight poll:
    the chunks are read one after the other at that same instant, with no
    sleep between them, until nothing that has arrived is left in the
    buffer.  Nothing has been written to the channel by then; the queue
    starts from there. *)
Theorem banner_drained_before_first_command :
  forall (host username password : pystr) (commands : list pystr) (timeout : Z) (w : World),
    faults w = [] ->
    exists w1 w2 chunks,
      open_shell host username password timeout w = Some (Ret tt, w1) /\
      clock w1 = clock w + 1000 /\
      drain_banner w1 = Some (Ret tt, w2) /\
      trace w2 = trace w1 ++ map (fun d => (clock w1, EvRecv d)) chunks /\
      clock w2 = clock w1 /\
      inbuf w2 = [] /\
      Forall (fun p => clock w1 < fst p) (pending w2) /\
      sends w2 = sends w /\
      interactive_body host username password commands timeout w
        = (run_commands commands ;; ret true) w2.
Proof.
  intros host username password commands timeout w Hnil.
  destruct (open_shell_ok host username password timeout w Hnil)
    as (w1 & Hrun1 & Hnil1 & Hclock1 & _ & _ & Htr1).
  destruct (drain_banner_run w1) as (r & w2 & chunks & Hrun2 & Htr2 & Hclock2 & Hok & Hret).
  destruct (Hok Hnil1) as [-> _].
  destruct (Hret eq_refl) as [Hbuf Hpend].
  exists w1, w2, chunks.
  split; [exact Hrun1|]. split; [exact Hclock1|]. split; [exact Hrun2|].
  split; [exact Htr2|]. split; [exact Hclock2|]. split; [exact Hbuf|].
  split; [exact Hpend|].
  split.
  - unfold sends. rewrite Htr2, Htr1, !sends_in_app.
    rewrite (quiet_sends _ (recvs_quiet (clock w1) chunks)). cbn [sends_in].
    now rewrite !app_nil_r.
  - unfold interactive_body. unfold bind at 1. rewrite Hrun1.
    unfold bind at 1. now rewrite Hrun2.
Qed.

(** C10. The driver keeps none of the remote output.  The accumulator a
    command's loop leaves holds the text of the chunks received during that
    command alone: it started empty.  The function's value is a bare
    boolean, [True] exactly when the [try] block ran to its end, whatever
    was collected. *)
Theorem collected_output_discarded :
  (forall cmd w, exists r w' evs,
      run_one cmd w = Some (r, w') /\
      trace w' = trace w ++ evs /\
      match r with Ret output => output = collected_in evs | Raise _ => True end) /\
  (forall host username password commands timeout w, exists r w1 w',
      interactive_body host username password commands timeout (log EvHostKeyPolicy w)
        = Some (r, w1) /\
      run_interactive_ssh host username password commands timeout w
        = Some (Ret (is_ret r), w')).
Proof.
  split.
  - intros cmd w.
    destruct (run_one_run cmd w) as (r & w' & evs & Hrun & Htr & _ & _ & _ & Hout & _).
    exists r, w', evs. split; [exact Hrun|]. split; [exact Htr|].
    destruct r as [o|]; [now apply Hout|exact I].
  - intros.
    destruct (interactive_body_run host username password commands timeout
                (log EvHostKeyPolicy w))
      as (r & w1 & evs & k & Hrun & _ & _ & Hval & _).
    exists r, w1, (snd (after_try (fun _ : Exn => false) r w1)).
    split; [exact Hrun|].
    rewrite run_interactive_ssh_guarded, (guarded_run _ _ w r w1 Hrun).
    destruct r as [b|e]; cbn [after_try snd is_ret]; [|reflexivity].
    specialize (Hval eq_refl). now injection Hval as ->.
Qed.

(** ** The claims at concrete inputs *)

Example download_failing_transfer_returns_false :
  outcome_of (Download.download_file (lit "host") (lit "user") (lit "secret")
                (lit "/tmp/a.png") (lit "a.png") world_transfer_fails)
  = Some (Ret false).
Proof. vm_compute. reflexivity. Qed.

Example download_missing_file_returns_false :
  outcome_of (Download.download_file (lit "host") (lit "user") (lit "secret")
                (lit "/tmp/a.png") (lit "a.png") idle)
  = Some (Ret false).
Proof. vm_compute. reflexivity. Qed.

Example download_success_returns_true :
  exists w',
    Download.download_file (lit "host") (lit "user") (lit "secret")
      (lit "/tmp/a.png") (lit "a.png") world_with_file = Some (Ret true, w') /\
    local_fs w' = [(lit "a.png", [x89; x50])].
Proof. eexists. split; vm_compute; reflexivity. Qed.

Example runner_stdout_only :
  outcome_of (Runner.run_ssh_command (lit "host") (lit "user") (lit "secret") (lit "echo hi")
                world_stdout_only)
  = Some (Ret (Some (lit "hi"), [])).
Proof. vm_compute. reflexivity. Qed.

Example runner_undecodable_output_is_an_error :
  outcome_of (Runner.run_ssh_command (lit "host") (lit "user") (lit "secret") (lit "cat f")
                (mkWorld 0 [] [] [] malformed_chunk [] [] [] []))
  = Some (Ret (None, lit "'utf-8' codec can't decode bytes")).
Proof. vm_compute. reflexivity. Qed.

(** Data every ten seconds for a minute: the loop that began at time 0 is
    still running at 60 seconds and ends at 90. *)
Example chatty_channel_keeps_loop_alive :
  exists w',
    collect world_chatty = Some (Ret (lit "abcdef"), w') /\ clock w' = 90000.
Proof. eexists. split; vm_compute; reflexivity. Qed.



(** The collection of a malformed chunk, and the decoding of [hi]. *)
Lemma chunks_decoded_printed_accumulated_witness :
  (exists r w' evs,
      collect world_malformed = Some (r, w') /\
      trace w' = trace world_malformed ++ evs /\
      echoed evs /\ printed_in evs = collected_in evs /\ is_ret r = true) /\
  decode_ignore [x68; x69] = lit "hi".
Proof.
  destruct chunks_decoded_printed_accumulated as (H1 & H2).
  split.
  - destruct (H1 world_malformed) as (r & w' & evs & Hrun & Htr & Hecho & Hprint & _ & Hok).
    exists r, w', evs. repeat split; try assumption. apply Hok. reflexivity.
  - apply H2. reflexivity.
Defined.

(** The banner [hi], buffered when the shell is allocated. *)
Lemma banner_drained_before_first_command_witness :
  faults world_banner = [] /\
  exists w1 w2 chunks,
    open_shell (lit "host") (lit "user") (lit "secret") 120 world_banner = Some (Ret tt, w1) /\
    clock w1 = clock world_banner + 1000 /\
    drain_banner w1 = Some (Ret tt, w2) /\
    trace w2 = trace w1 ++ map (fun d => (clock w1, EvRecv d)) chunks /\
    clock w2 = clock w1 /\
    inbuf w2 = [] /\
    Forall (fun p => clock w1 < fst p) (pending w2) /\
    sends w2 = sends world_banner /\
    interactive_body (lit "host") (lit "user") (lit "secret") [lit "ls"] 120 world_banner
      = (run_commands [lit "ls"] ;; ret true) w2.
Proof.
  split; [reflexivity|].
  apply (banner_drained_before_first_command
           (lit "host") (lit "user") (lit "secret") [lit "ls"] 120 world_banner).
  reflexivity.
Defined.

(** * Further properties of the scripts *)

(** ** Order of the effects of an entry point *)

Lemma guarded_shape {A} (body : M A) (fail : Exn -> A) :
  steps not_close body ->
  forall w, exists r w' evs,
    guarded body fail w = Some (r, w') /\
    trace w' = trace w ++ (clock w, EvHostKeyPolicy) :: evs ++ [(clock w', EvClose)] /\
    Forall not_close evs.
Proof.
  intros Hbody w.
  destruct (Hbody (log EvHostKeyPolicy w)) as (r & w1 & evs & Hrun & Htr & Hnc).
  rewrite (guarded_run body fail w r w1 Hrun).
  destruct r as [a|e]; cbn [after_try].
  - exists (Ret a), (log EvClose w1), evs.
    split; [reflexivity|].
    split; [proj; rewrite Htr; proj; now rewrite <- !app_assoc|exact Hnc].
  - eexists (Ret (fail e)), _, (evs ++ [(clock w1, EvPrint _)]).
    split; [reflexivity|].
    split; [proj; rewrite Htr; proj; now rewrite <- !app_assoc|].
    apply Forall_app. split; [exact Hnc|]. now repeat constructor.
Qed.

(** X1. In every run of each of the three entry points the host key policy
    is set first and [client.close()] is the last effect: nothing is done
    with the client after it was closed. *)
Theorem close_is_the_last_effect :
  forall (host username password remote_path local_path command : pystr)
         (commands : list pystr) (timeout : Z) (w : World),
    (exists r w' evs,
        Download.download_file host username password remote_path local_path w = Some (r, w')
        /\ trace w' = trace w ++ (clock w, EvHostKeyPolicy) :: evs ++ [(clock w', EvClose)]
        /\ Forall not_close evs) /\
    (exists r w' evs,
        Runner.run_ssh_command host username password command w = Some (r, w')
        /\ trace w' = trace w ++ (clock w, EvHostKeyPolicy) :: evs ++ [(clock w', EvClose)]
        /\ Forall not_close evs) /\
    (exists r w' evs,
        run_interactive_ssh host username password commands timeout w = Some (r, w')
        /\ trace w' = trace w ++ (clock w, EvHostKeyPolicy) :: evs ++ [(clock w', EvClose)]
        /\ Forall not_close evs).
Proof.
  intros. split; [|split].
  - rewrite download_file_guarded. apply guarded_shape.
    eapply steps_mono; [exact quiet_not_close|apply download_body_quiet].
  - rewrite run_ssh_command_guarded. apply guarded_shape.
    eapply steps_mono; [exact quiet_not_close|apply run_body_quiet].
  - rewrite run_interactive_ssh_guarded. apply guarded_shape.
    apply interactive_body_not_close.
Qed.

(** ** A connection that cannot be made *)

Lemma guarded_connect_fails {A} (body : M A) (fail : Exn -> A) host w e :
  hd None (faults w) = Some e ->
  (forall w0, hd None (faults w0) = Some e ->
     exists w1, body w0 = Some (Raise e, w1) /\
       clock w1 = clock w0 /\
       trace w1 = trace w0
                  ++ [(clock w0, EvPrint ((lit "Connecting to " ++ host ++ lit "...") ++ newline))]) ->
  exists w',
    guarded body fail w = Some (Ret (fail e), w') /\
    trace w' = trace w
               ++ [(clock w, EvHostKeyPolicy);
                   (clock w, EvPrint ((lit "Connecting to " ++ host ++ lit "...") ++ newline));
                   (clock w, EvPrint ((lit "Error: " ++ e) ++ newline));
                   (clock w, EvClose)].
Proof.
  intros Hf Hbody.
  destruct (Hbody (log EvHostKeyPolicy w) Hf) as (w1 & Hrun & Hclock & Htr).
  rewrite (guarded_run body fail w _ w1 Hrun). cbn [after_try].
  eexists. split; [reflexivity|].
  proj. rewrite Htr, Hclock. proj. now rewrite <- !app_assoc.
Qed.

(** X2. When the connect fails with [e], each entry point stops there: it
    opens no SFTP channel, executes nothing, allocates no shell and sends
    nothing; it prints [Error: e], closes the client and returns its failure
    value ([False], or [(None, str(e))] for the command runner). *)
Theorem connect_failure_stops_everything :
  forall (host username password remote_path local_path command : pystr)
         (commands : list pystr) (timeout : Z) (w : World) (e : Exn),
    hd None (faults w) = Some e ->
    let report :=
      [(clock w, EvHostKeyPolicy);
       (clock w, EvPrint ((lit "Connecting to " ++ host ++ lit "...") ++ newline));
       (clock w, EvPrint ((lit "Error: " ++ e) ++ newline));
       (clock w, EvClose)] in
    (exists w',
        Download.download_file host username password remote_path local_path w
          = Some (Ret false, w') /\ trace w' = trace w ++ report) /\
    (exists w',
        Runner.run_ssh_command host username password command w
          = Some (Ret (None, e), w') /\ trace w' = trace w ++ report) /\
    (exists w',
        run_interactive_ssh host username password commands timeout w
          = Some (Ret false, w') /\ trace w' = trace w ++ report).
Proof.
  intros host username password remote_path local_path command commands timeout w e Hf report.
  split; [|split].
  - rewrite download_file_guarded.
    apply (guarded_connect_fails _ (fun _ => false) host w e Hf).
    intros w0 Hf0.
    unfold Download.download_body, print, client_connect, transport, effect, fault_check, bind.
    proj. rewrite Hf0. eexists. repeat split.
  - rewrite run_ssh_command_guarded.
    apply (guarded_connect_fails _ (fun e => (None, e)) host w e Hf).
    intros w0 Hf0.
    unfold Runner.run_body, print, client_connect, transport, effect, fault_check, bind.
    proj. rewrite Hf0. eexists. repeat split.
  - rewrite run_interactive_ssh_guarded.
    apply (guarded_connect_fails _ (fun _ => false) host w e Hf).
    intros w0 Hf0.
    unfold interactive_body, open_shell, print, client_connect, transport, effect,
      fault_check, bind.
    proj. rewrite Hf0. eexists. repeat split.
Qed.

Lemma connect_failure_stops_everything_witness :
  exists w',
    run_interactive_ssh (lit "host") (lit "user") (lit "secret") [lit "ls"] 120
      world_unreachable = Some (Ret false, w') /\
    sends w' = [].
Proof.
  destruct (connect_failure_stops_everything (lit "host") (lit "user") (lit "secret")
              [] [] [] [lit "ls"] 120 world_unreachable (lit "timed out") eq_refl)
    as (_ & _ & w' & Hrun & Htr).
  exists w'. split; [exact Hrun|]. unfold sends. rewrite Htr. reflexivity.
Defined.


(** X4. The file fetcher takes its paths from the command line only when at
    least two arguments are given: the first is the remote path, the second
    the local path, and whatever follows is ignored.  With fewer arguments
    both paths are the built-in defaults. *)
Theorem download_paths_from_arguments :
  (forall (script remote_path local_path : pystr) (more : list pystr) (w : World),
      Download.main_paths (script :: remote_path :: local_path :: more)
        = (remote_path, local_path) /\
      Download.main (script :: remote_path :: local_path :: more) w
        = Download.main [script; remote_path; local_path] w) /\
  (forall argv : list pystr,
      (length argv < 3)%nat ->
      Download.main_paths argv
        = (Download.default_remote_path, Download.default_local_path)).
Proof.
  split.
  - intros. split; reflexivity.
  - intros argv Hlen. unfold Download.main_paths.
    destruct (Nat.leb_spec 3 (length argv)); [lia|reflexivity].
Qed.

Lemma download_paths_from_arguments_witness :
  Download.main_paths [lit "ssh_download.py"]
    = (Download.default_remote_path, Download.default_local_path).
Proof.
  destruct download_paths_from_arguments as [_ H].
  apply H. cbn. lia.
Defined.

(** Run on through calls that a spent fault script lets pass. *)
Ltac run_on :=
  repeat progress
    (cbn [hd tl clock faults inbuf pending trace remote_stdout remote_stderr remote_fs
          local_fs log set_clock set_faults set_channel set_local_fs]).

(** ** The command runner: when it succeeds and what undecodable output costs *)

Lemma run_body_ok host username password command w output errors :
  faults w = [] ->
  decode_strict (remote_stdout w) = Some output ->
  decode_strict (remote_stderr w) = Some errors ->
  exists w1,
    Runner.run_body host username password command w = Some (Ret (Some output, errors), w1) /\
    clock w1 = clock w /\
    trace w1 = trace w
               ++ [(clock w, EvPrint ((lit "Connecting to " ++ host ++ lit "...") ++ newline));
                   (clock w, EvConnect host username password false false 30);
                   (clock w, EvPrint (lit "Connected!" ++ newline));
                   (clock w, EvExec command 300);
                   (clock w, EvRead Stdout);
                   (clock w, EvRead Stderr)]
               ++ shown (clock w) (lit "STDOUT:") output
               ++ shown (clock w) (lit "STDERR:") errors.
Proof.
  intros Hnil Hout Herr.
  unfold Runner.run_body, Runner.show, print, client_connect, stream_read, transport,
    decode, effect, fault_check, bind, ret, raise, shown.
  proj. rewrite Hnil. run_on. rewrite Hout. run_on. rewrite Herr. run_on.
  destruct (is_empty output), (is_empty errors); proj;
    eexists; (split; [reflexivity|]); (split; [reflexivity|]);
    proj; rewrite <- ?app_assoc; reflexivity.
Qed.

(** X5. When no transport call fails and both streams are valid UTF-8,
    [run_ssh_command] returns the two decoded streams; the command is
    executed once, both streams are read before anything is printed, and a
    stream that is empty is not printed at all, not even its header. *)
Theorem runner_success :
  forall (host username password command output errors : pystr) (w : World),
    faults w = [] ->
    decode_strict (remote_stdout w) = Some output ->
    decode_strict (remote_stderr w) = Some errors ->
    exists w',
      Runner.run_ssh_command host username password command w
        = Some (Ret (Some output, errors), w') /\
      trace w' = trace w
                 ++ [(clock w, EvHostKeyPolicy);
                     (clock w, EvPrint ((lit "Connecting to " ++ host ++ lit "...") ++ newline));
                     (clock w, EvConnect host username password false false 30);
                     (clock w, EvPrint (lit "Connected!" ++ newline));
                     (clock w, EvExec command 300);
                     (clock w, EvRead Stdout);
                     (clock w, EvRead Stderr)]
                 ++ shown (clock w) (lit "STDOUT:") output
                 ++ shown (clock w) (lit "STDERR:") errors
                 ++ [(clock w, EvClose)].
Proof.
  intros host username password command output errors w Hnil Hout Herr.
  destruct (run_body_ok host username password command (log EvHostKeyPolicy w) output errors
              Hnil Hout Herr) as (w1 & Hrun & Hclock & Htr).
  rewrite run_ssh_command_guarded, (guarded_run _ _ w _ w1 Hrun). cbn [after_try].
  eexists. split; [reflexivity|].
  proj. rewrite Htr, Hclock. proj. rewrite <- !app_assoc. reflexivity.
Qed.

Lemma runner_success_witness :
  exists w',
    Runner.run_ssh_command (lit "host") (lit "user") (lit "secret") (lit "echo hi")
      world_stdout_only = Some (Ret (Some (lit "hi"), []), w') /\
    printed_in (skipn 7 (trace w')) = lit "STDOUT:" ++ newline ++ lit "hi" ++ newline.
Proof.
  destruct (runner_success (lit "host") (lit "user") (lit "secret") (lit "echo hi")
              (lit "hi") [] world_stdout_only eq_refl eq_refl eq_refl)
    as (w' & Hrun & Htr).
  exists w'. split; [exact Hrun|]. rewrite Htr. reflexivity.
Defined.

(** X6. Output that is not valid UTF-8 costs the whole result.  When stdout
    does not decode, stderr is never read, nothing of the output is printed
    and the value is [(None, message)]; when stdout decodes and stderr does
    not, the decoded stdout is dropped all the same. *)
Theorem runner_undecodable_output_loses_everything :
  forall (host username password command : pystr) (w : World),
    faults w = [] ->
    (decode_strict (remote_stdout w) = None ->
     exists message w',
       Runner.run_ssh_command host username password command w
         = Some (Ret (None, message), w') /\
       trace w' = trace w
                  ++ [(clock w, EvHostKeyPolicy);
                      (clock w, EvPrint ((lit "Connecting to " ++ host ++ lit "...") ++ newline));
                      (clock w, EvConnect host username password false false 30);
                      (clock w, EvPrint (lit "Connected!" ++ newline));
                      (clock w, EvExec command 300);
                      (clock w, EvRead Stdout);
                      (clock w, EvPrint ((lit "Error: " ++ message) ++ newline));
                      (clock w, EvClose)]) /\
    (forall output,
     decode_strict (remote_stdout w) = Some output ->
     decode_strict (remote_stderr w) = None ->
     exists message w',
       Runner.run_ssh_command host username password command w
         = Some (Ret (None, message), w') /\
       trace w' = trace w
                  ++ [(clock w, EvHostKeyPolicy);
                      (clock w, EvPrint ((lit "Connecting to " ++ host ++ lit "...") ++ newline));
                      (clock w, EvConnect host username password false false 30);
                      (clock w, EvPrint (lit "Connected!" ++ newline));
                      (clock w, EvExec command 300);
                      (clock w, EvRead Stdout);
                      (clock w, EvRead Stderr);
                      (clock w, EvPrint ((lit "Error: " ++ message) ++ newline));
                      (clock w, EvClose)]).
Proof.
  intros host username password command w Hnil.
  split; [intros Hout|intros output Hout Herr];
    rewrite run_ssh_command_guarded;
    unfold guarded, try_finally, try_except, client_close, Runner.run_body, print,
      client_connect, stream_read, transport, decode, effect, fault_check, bind, ret, raise;
    proj; rewrite Hnil; run_on; rewrite Hout; run_on; rewrite ?Herr; run_on;
    eexists _, _; (split; [reflexivity|]);
    run_on; rewrite <- !app_assoc; reflexivity.
Qed.

Lemma runner_undecodable_output_loses_everything_witness :
  exists message w',
    Runner.run_ssh_command (lit "host") (lit "user") (lit "secret") (lit "cat f")
      world_binary_stdout = Some (Ret (None, message), w') /\
    ~ In (0, EvRead Stderr) (trace w').
Proof.
  destruct (runner_undecodable_output_loses_everything
              (lit "host") (lit "user") (lit "secret") (lit "cat f")
              world_binary_stdout eq_refl) as [H _].
  destruct (H eq_refl) as (message & w' & Hrun & Htr).
  exists message, w'. split; [exact Hrun|].
  rewrite Htr. cbn [trace world_binary_stdout app In].
  intros Hin.
  repeat (destruct Hin as [Hin|Hin]; [discriminate Hin|]). exact Hin.
Defined.

(** ** What draining the banner takes from the channel *)

Lemma drain_loop_conserves : forall fuel w w',
  drain_loop fuel w = Some (Ret tt, w') ->
  exists chunks,
    trace w' = trace w ++ map (fun d => (clock w, EvRecv d)) chunks /\
    concat chunks = inbuf (deliver w) /\
    Forall (fun d => (0 < length d <= chunk_size)%nat) chunks /\
    inbuf w' = [] /\
    pending w' = pending (deliver w).
Proof.
  induction fuel as [|fuel IH]; intros w w' Hrun; [discriminate|].
  rewrite drain_loop_unfold in Hrun. cbv zeta in Hrun.
  destruct (hd None (faults w)); [discriminate|].
  set (w2 := deliver (set_faults (tl (faults w)) w)) in *.
  assert (Hs2 : settled w2) by apply settled_deliver.
  change (inbuf (deliver w)) with (inbuf w2).
  change (pending (deliver w)) with (pending w2).
  destruct (inbuf w2) as [|b l] eqn:Hbuf.
  - inversion Hrun; subst. exists []. cbn [map concat]. rewrite app_nil_r.
    repeat split; auto.
  - destruct (hd None (faults w2)); [discriminate|].
    set (w4 := log _ _) in Hrun.
    destruct (IH w4 w' Hrun) as (chunks & Htr & Hcat & Hsz & Hend & Hpend).
    assert (Hd : deliver w4 = w4).
    { apply deliver_fixed. exact Hs2. }
    rewrite Hd in Hcat, Hpend.
    exists (firstn chunk_size (b :: l) :: chunks).
    split; [rewrite Htr; unfold w4; proj; cbn [map]; now rewrite <- app_assoc|].
    split; [cbn [concat]; rewrite Hcat; unfold w4; proj; apply firstn_skipn|].
    split.
    { constructor; [|exact Hsz]. split.
      - pose proof chunk_size_pos. destruct chunk_size; [lia|]. cbn. lia.
      - rewrite length_firstn. lia. }
    split; [exact Hend|exact Hpend].
Qed.

(** X7. Draining the banner takes from the channel exactly the bytes that
    had arrived by then, in order and in chunks of 1 to 4096 bytes, prints
    none of them and leaves the buffer empty; payloads that are due later are
    untouched and wait for the first command's collection. *)
Theorem drain_takes_what_has_arrived :
  forall w : World,
    faults w = [] ->
    exists w' chunks,
      drain_banner w = Some (Ret tt, w') /\
      trace w' = trace w ++ map (fun d => (clock w, EvRecv d)) chunks /\
      concat chunks
        = inbuf w ++ concat (map snd (filter (arrived (clock w)) (pending w))) /\
      Forall (fun d => (0 < length d <= chunk_size)%nat) chunks /\
      inbuf w' = [] /\
      pending w' = filter (fun p => negb (arrived (clock w) p)) (pending w).
Proof.
  intros w Hnil.
  destruct (drain_banner_run w) as (r & w' & chunks0 & Hrun & _ & _ & Hok & _).
  destruct (Hok Hnil) as [-> _].
  destruct (drain_loop_conserves _ _ _ Hrun) as (chunks & Htr & Hcat & Hsz & Hend & Hpend).
  exists w', chunks. repeat split; assumption.
Qed.

Lemma drain_takes_what_has_arrived_witness :
  exists w' chunks,
    drain_banner world_banner_and_more = Some (Ret tt, w') /\
    concat chunks = [x68; x69] /\
    pending w' = [(5000, [x61])].
Proof.
  destruct (drain_takes_what_has_arrived world_banner_and_more eq_refl)
    as (w' & chunks & Hrun & _ & Hcat & _ & _ & Hpend).
  exists w', chunks. repeat split; assumption.
Defined.

(** ** How long a session takes *)

Lemma run_commands_duration : forall commands w,
  faults w = [] ->
  exists w',
    run_commands commands w = Some (Ret tt, w') /\
    faults w' = [] /\
    clock w + 32000 * Z.of_nat (length commands) <= clock w'.
Proof.
  induction commands as [|cmd rest IH]; intros w Hnil.
  - exists w. cbn [run_commands length]. unfold ret. repeat split; auto. lia.
  - cbn [run_commands]. unfold bind.
    destruct (run_one_run cmd w) as (r & w1 & evs & -> & _ & _ & _ & Hok & _ & Hsend).
    destruct (Hok Hnil) as [Hr Hnil1].
    destruct r as [o|]; [|discriminate].
    destruct Hsend as [[_ Hbad]|[_ Hgap]]; [discriminate|].
    specialize (Hgap eq_refl).
    destruct (IH w1 Hnil1) as (w' & -> & Hnil' & Hclock).
    exists w'. split; [reflexivity|]. split; [exact Hnil'|].
    cbn [length]. lia.
Qed.

Lemma interactive_session_ok host username password commands timeout w :
  faults w = [] ->
  exists w1 w2 w3,
    open_shell host username password timeout (log EvHostKeyPolicy w) = Some (Ret tt, w1) /\
    drain_banner w1 = Some (Ret tt, w2) /\
    run_commands commands w2 = Some (Ret tt, w3) /\
    run_interactive_ssh host username password commands timeout w
      = Some (Ret true, log EvClose w3) /\
    clock w2 = clock w + 1000 /\ faults w2 = [] /\
    sends w2 = sends w.
Proof.
  intros Hnil.
  destruct (open_shell_ok host username password timeout (log EvHostKeyPolicy w) Hnil)
    as (w1 & Hrun1 & Hnil1 & Hclock1 & _ & _ & Htr1).
  destruct (drain_banner_run w1) as (r & w2 & chunks & Hrun2 & Htr2 & Hclock2 & Hok & _).
  destruct (Hok Hnil1) as [-> Hnil2].
  destruct (run_commands_duration commands w2 Hnil2) as (w3 & Hrun3 & _ & _).
  exists w1, w2, w3.
  split; [exact Hrun1|]. split; [exact Hrun2|]. split; [exact Hrun3|].
  split.
  { rewrite run_interactive_ssh_guarded.
    apply (guarded_run _ (fun _ => false) w (Ret true) w3).
    unfold interactive_body. unfold bind at 1. rewrite Hrun1.
    unfold bind at 1. rewrite Hrun2. unfold bind at 1. now rewrite Hrun3. }
  split; [rewrite Hclock2, Hclock1; reflexivity|]. split; [exact Hnil2|].
  unfold sends. rewrite Htr2, Htr1. proj. rewrite !sends_in_app.
  rewrite (quiet_sends _ (recvs_quiet (clock w1) chunks)). cbn [sends_in].
  now rewrite !app_nil_r.
Qed.

(** X8. A session in which no transport call fails costs at least one
    second for the shell and 32 seconds for each queued command (the
    2-second settle delay and a full 30-second window), however quickly the
    remote side answers. *)
Theorem session_takes_at_least_32_seconds_per_command :
  forall (host username password : pystr) (commands : list pystr) (timeout : Z) (w : World),
    faults w = [] ->
    exists w',
      run_interactive_ssh host username password commands timeout w = Some (Ret true, w') /\
      clock w + 1000 + 32000 * Z.of_nat (length commands) <= clock w'.
Proof.
  intros host username password commands timeout w Hnil.
  destruct (interactive_session_ok host username password commands timeout w Hnil)
    as (w1 & w2 & w3 & _ & _ & Hrun3 & Hrun & Hclock2 & Hnil2 & _).
  destruct (run_commands_duration commands w2 Hnil2) as (w3' & Hrun3' & _ & Hclock3).
  rewrite Hrun3 in Hrun3'. inversion Hrun3'; subst w3'.
  exists (log EvClose w3). split; [exact Hrun|]. proj. lia.
Qed.

Lemma session_takes_at_least_32_seconds_per_command_witness :
  exists w',
    run_interactive_ssh (lit "host") (lit "user") (lit "secret") [lit "ls"; lit "pwd"] 120
      world_chatty = Some (Ret true, w') /\
    65000 <= clock w'.
Proof.
  destruct (session_takes_at_least_32_seconds_per_command
              (lit "host") (lit "user") (lit "secret") [lit "ls"; lit "pwd"] 120
              world_chatty eq_refl) as (w' & Hrun & Hclock).
  exists w'. split; [exact Hrun|]. exact Hclock.
Defined.

(** ** A remote side that never answers *)

Lemma run_commands_silent : forall commands w,
  faults w = [] -> inbuf w = [] ->
  Forall (fun p => clock w + 32000 * Z.of_nat (length commands) <= fst p) (pending w) ->
  exists w',
    run_commands commands w = Some (Ret tt, w') /\
    clock w' = clock w + 32000 * Z.of_nat (length commands) /\
    sends w' = sends w ++ schedule (clock w) commands.
Proof.
  induction commands as [|cmd rest IH]; intros w Hnil Hbuf Hpend.
  - exists w. cbn [run_commands length schedule]. unfold ret.
    rewrite app_nil_r. repeat split. lia.
  - cbn [run_commands]. unfold bind.
    destruct (run_one_silent cmd w Hnil Hbuf) as (w1 & Hrun & Hclock & Hnil1 & Hbuf1 & Hpend1).
    { eapply Forall_impl; [|exact Hpend]. cbv beta. cbn [length]. intros; lia. }
    destruct (run_one_run cmd w) as (r & w1' & evs & Hrun' & Htr & _ & _ & _ & _ & Hsend).
    rewrite Hrun in Hrun'. inversion Hrun'; subst r w1'. clear Hrun'.
    destruct Hsend as [[_ Hbad]|[Hsend _]]; [discriminate|].
    rewrite Hrun.
    destruct (IH w1 Hnil1 Hbuf1) as (w' & -> & Hclock' & Hsends').
    { rewrite Hpend1, Hclock. eapply Forall_impl; [|exact Hpend].
      cbv beta. cbn [length]. intros; lia. }
    exists w'. split; [reflexivity|].
    split; [rewrite Hclock', Hclock; cbn [length]; lia|].
    rewrite Hsends'. unfold sends. rewrite Htr, sends_in_app, Hsend, Hclock.
    cbn [schedule]. now rewrite <- app_assoc.
Qed.

(** X9. On a channel that stays silent for the whole session the driver
    runs like a clock: the first command is written one second after the
    start, each further command exactly 32 seconds after the one before, and
    the session ends 32 seconds after the last. *)
Theorem silent_session_schedule :
  forall (host username password : pystr) (commands : list pystr) (timeout : Z) (w : World),
    faults w = [] -> inbuf w = [] ->
    Forall (fun p => clock w + 1000 + 32000 * Z.of_nat (length commands) <= fst p)
           (pending w) ->
    exists w',
      run_interactive_ssh host username password commands timeout w = Some (Ret true, w') /\
      sends w' = sends w ++ schedule (clock w + 1000) commands /\
      clock w' = clock w + 1000 + 32000 * Z.of_nat (length commands).
Proof.
  intros host username password commands timeout w Hnil Hbuf Hpend.
  destruct (interactive_session_ok host username password commands timeout w Hnil)
    as (w1 & w2 & w3 & Hrun1 & Hrun2 & Hrun3 & Hrun & Hclock2 & Hnil2 & Hsends2).
  destruct (open_shell_ok host username password timeout (log EvHostKeyPolicy w) Hnil)
    as (w1' & Hrun1' & Hnil1 & Hclock1 & Hbuf1 & Hpend1 & _).
  rewrite Hrun1 in Hrun1'. inversion Hrun1'; subst w1'. clear Hrun1'.
  destruct (drain_loop_conserves _ _ _ Hrun2) as (chunks & _ & _ & _ & Hbuf2 & Hpend2).
  destruct (run_commands_silent commands w2 Hnil2 Hbuf2) as (w3' & Hrun3' & Hclock3 & Hsends3).
  { rewrite Hpend2. unfold deliver. proj. rewrite Hpend1. proj.
    apply Forall_forall. intros p Hp. apply filter_In in Hp. destruct Hp as [Hp _].
    rewrite Forall_forall in Hpend. specialize (Hpend p Hp). lia. }
  rewrite Hrun3 in Hrun3'. inversion Hrun3'; subst w3'. clear Hrun3'.
  exists (log EvClose w3). split; [exact Hrun|].
  split.
  - unfold sends in *. proj. rewrite sends_in_app. cbn [sends_in]. rewrite app_nil_r.
    rewrite Hsends3, Hsends2, Hclock2. reflexivity.
  - proj. lia.
Qed.

Lemma silent_session_schedule_witness :
  exists w',
    run_interactive_ssh (lit "host") (lit "user") (lit "secret") [lit "ls"; lit "pwd"] 120 idle
      = Some (Ret true, w') /\
    sends w' = [(1000, lit "ls" ++ newline); (33000, lit "pwd" ++ newline)] /\
    clock w' = 65000.
Proof.
  destruct (silent_session_schedule (lit "host") (lit "user") (lit "secret")
              [lit "ls"; lit "pwd"] 120 idle eq_refl eq_refl (Forall_nil _))
    as (w' & Hrun & Hsends & Hclock).
  exists w'. split; [exact Hrun|]. split; [exact Hsends|exact Hclock].
Defined.

(** ** The interactive driver's command line *)

Lemma interactive_sends_all host username password commands timeout w :
  faults w = [] ->
  exists w' new,
    run_interactive_ssh host username password commands timeout w = Some (Ret true, w') /\
    sends w' = sends w ++ new /\
    map snd new = map (fun c => c ++ newline) commands.
Proof.
  intros Hnil.
  destruct (interactive_session_ok host username password commands timeout w Hnil)
    as (w1 & w2 & w3 & _ & _ & Hrun3 & Hrun & _ & Hnil2 & Hsends2).
  destruct (run_commands_run commands w2)
    as (r & w3' & evs & k & Hrun3' & Htr & _ & _ & _ & Hsent & _ & _ & Hall).
  rewrite Hrun3 in Hrun3'. inversion Hrun3'; subst r w3'. clear Hrun3'.
  rewrite (Hall eq_refl), firstn_all in Hsent.
  exists (log EvClose w3), (sends_in evs).
  split; [exact Hrun|]. split; [|exact Hsent].
  unfold sends in *. proj. rewrite Htr, !sends_in_app, Hsends2. cbn [sends_in].
  now rewrite app_nil_r.
Qed.

(** X10. The interactive driver queues one command per command-line
    argument, in order, and, when no transport call fails, writes every one
    of them to the shell; without arguments it writes its four built-in
    lines instead. *)
Theorem interactive_main_queues_each_argument :
  (forall (script first : pystr) (rest : list pystr) (w : World),
      faults w = [] ->
      exists w' new,
        InteractiveMain.main (script :: first :: rest) w = Some (Ret tt, w') /\
        sends w' = sends w ++ new /\
        map snd new = map (fun c => c ++ newline) (first :: rest)) /\
  (forall (script : pystr) (w : World),
      faults w = [] ->
      exists w' new,
        InteractiveMain.main [script] w = Some (Ret tt, w') /\
        sends w' = sends w ++ new /\
        map snd new = map (fun c => c ++ newline) InteractiveMain.default_commands /\
        length new = 4%nat).
Proof.
  split.
  - intros script first rest w Hnil.
    destruct (interactive_sends_all InteractiveMain.host InteractiveMain.username
                InteractiveMain.password (first :: rest) 120 w Hnil)
      as (w' & new & Hrun & Hsends & Hmap).
    exists w', new. split; [|split; assumption].
    unfold InteractiveMain.main, bind.
    change (InteractiveMain.main_commands (script :: first :: rest)) with (first :: rest).
    now rewrite Hrun.
  - intros script w Hnil.
    destruct (interactive_sends_all InteractiveMain.host InteractiveMain.username
                InteractiveMain.password InteractiveMain.default_commands 120 w Hnil)
      as (w' & new & Hrun & Hsends & Hmap).
    exists w', new. split; [|split; [assumption|split; [assumption|]]].
    + unfold InteractiveMain.main, bind.
      change (InteractiveMain.main_commands [script]) with InteractiveMain.default_commands.
      now rewrite Hrun.
    + apply (f_equal (@length pystr)) in Hmap. rewrite !length_map in Hmap.
      rewrite Hmap. reflexivity.
Qed.

Lemma interactive_main_queues_each_argument_witness :
  exists w' new,
    InteractiveMain.main [lit "ssh_mac_interactive.py"; lit "ls"; lit "pwd"] idle
      = Some (Ret tt, w') /\
    sends w' = sends idle ++ new /\
    map snd new = [lit "ls" ++ newline; lit "pwd" ++ newline].
Proof.
  destruct interactive_main_queues_each_argument as [H _].
  apply (H (lit "ssh_mac_interactive.py") (lit "ls") [lit "pwd"] idle). reflexivity.
Defined.

(** ** Decoding chunk by chunk *)

Lemma utf8_start_ascii n : (n < 128)%N -> utf8_start n = ([Some n], DStart).
Proof. intros H. unfold utf8_start. apply N.ltb_lt in H. now rewrite H. Qed.

Lemma utf8_scan_ascii bs :
  Forall (fun b => (Byte.to_N b < 128)%N) bs ->
  utf8_scan DStart bs = map (fun b => Some (Byte.to_N b)) bs.
Proof.
  induction 1 as [|b bs Hb _ IH]; [reflexivity|].
  cbn [utf8_scan utf8_step map]. rewrite (utf8_start_ascii _ Hb). cbn [app].
  now rewrite IH.
Qed.

Lemma decode_ignore_ascii bs :
  Forall (fun b => (Byte.to_N b < 128)%N) bs -> decode_ignore bs = map Byte.to_N bs.
Proof.
  intros H. unfold decode_ignore. rewrite (utf8_scan_ascii bs H).
  clear H. induction bs as [|b bs IH]; [reflexivity|].
  cbn [map flat_map drop_malformed app]. now rewrite IH.
Qed.

Ltac decide_ranges :=
  repeat match goal with
         | |- context [(?a <? ?b)%N] => destruct (N.ltb_spec a b); try lia
         | |- context [(?a <=? ?b)%N] => destruct (N.leb_spec a b); try lia
         | |- context [(?a =? ?b)%N] => destruct (N.eqb_spec a b); try lia
         end; cbn [andb].

Lemma utf8_start_lead2 n :
  in_range 194 223 n = true -> utf8_start n = ([], DCont 1 (N.land n 31) 128 191).
Proof.
  intros H. unfold utf8_start. rewrite H.
  unfold in_range in H. apply andb_true_iff in H. destruct H as [H1 H2].
  apply N.leb_le in H1. destruct (N.ltb_spec n 128); [lia|reflexivity].
Qed.

Lemma utf8_start_continuation n :
  in_range 128 191 n = true -> utf8_start n = ([None], DStart).
Proof.
  intros H. unfold in_range in H. apply andb_true_iff in H. destruct H as [H1 H2].
  apply N.leb_le in H1. apply N.leb_le in H2.
  unfold utf8_start, in_range. decide_ranges. reflexivity.
Qed.


(** ** Counting calls *)

Section Counting.

Variable kind : Op -> bool.














End Counting.










(** ** A failure after the transfer *)

(** X13. [False] from [download_file] does not mean that nothing was
    written.  When connect, [open_sftp] and the transfer succeed and only
    closing the SFTP channel raises, the local path holds the remote file's
    content and [Download complete!] has been printed, yet the function
    prints the error and returns [False]. *)
Theorem download_false_after_complete_transfer :
  forall (host username password remote_path local_path : pystr) (w : World)
         (e : Exn) (later : list (option Exn)) (content : list byte),
    faults w = None :: None :: None :: Some e :: later ->
    lookup_file remote_path (remote_fs w) = Some content ->
    exists w',
      Download.download_file host username password remote_path local_path w
        = Some (Ret false, w') /\
      lookup_file local_path (local_fs w') = Some content /\
      trace w'
        = trace w
          ++ [(clock w, EvHostKeyPolicy);
              (clock w, EvPrint ((lit "Connecting to " ++ host ++ lit "...") ++ newline));
              (clock w, EvConnect host username password false false 30);
              (clock w, EvPrint (lit "Connected!" ++ newline));
              (clock w, EvOpenSftp);
              (clock w, EvPrint ((lit "Downloading " ++ remote_path ++ lit " to "
                                    ++ local_path ++ lit "...") ++ newline));
              (clock w, EvGet remote_path local_path);
              (clock w, EvPrint (lit "Download complete!" ++ newline));
              (clock w, EvPrint ((lit "Error: " ++ e) ++ newline));
              (clock w, EvClose)].
Proof.
  intros host username password remote_path local_path w e later content Hf Hremote.
  rewrite download_file_guarded.
  unfold guarded, try_finally, try_except, client_close, Download.download_body, print,
    client_connect, transport, sftp_get, effect, fault_check, bind, ret.
  proj. rewrite Hf. run_on. rewrite Hremote. run_on.
  eexists. split; [reflexivity|]. run_on.
  split; [apply lookup_file_head|].
  rewrite <- !(app_assoc (A := Z * Op)). reflexivity.
Qed.

(** The transfer succeeds and closing the SFTP channel fails. *)
Lemma download_false_after_complete_transfer_witness :
  exists w',
    Download.download_file (lit "host") (lit "user") (lit "secret")
      (lit "/tmp/a.png") (lit "a.png") world_sftp_close_fails = Some (Ret false, w') /\
    lookup_file (lit "a.png") (local_fs w') = Some [x89; x50].
Proof.
  assert (Hf : faults world_sftp_close_fails
               = None :: None :: None :: Some (lit "Socket is closed") :: [])
    by reflexivity.
  assert (Hremote : lookup_file (lit "/tmp/a.png") (remote_fs world_sftp_close_fails)
                    = Some [x89; x50])
    by (vm_compute; reflexivity).
  pose proof (download_false_after_complete_transfer
              (lit "host") (lit "user") (lit "secret") (lit "/tmp/a.png") (lit "a.png")
              world_sftp_close_fails (lit "Socket is closed") [] [x89; x50]
              Hf Hremote) as H.
  destruct H as (w' & Hrun & Hlocal & _).
  exists w'.
  split.
  exact Hrun.
  exact Hlocal.
Defined.

(** * The claims on which runs fail and which succeed *)









(** * The collection loop reads what arrives *)

Lemma last_reset_ge : forall evs s t,
  Forall (fun e => t <= fst e) evs -> t <= s -> t <= last_reset s evs.
Proof.
  induction evs as [|[t' op] evs IH]; intros s t Hall Hs; [exact Hs|].
  inversion Hall as [|? ? Ht Hrest]; subst. cbn [fst] in Ht.
  destruct op; cbn [last_reset]; auto.
Qed.

Lemma all_bytes_deliver P w : all_bytes P w -> all_bytes P (deliver w).
Proof.
  intros [Hbuf Hpend]. unfold all_bytes, deliver. proj. split.
  - apply Forall_app. split; [exact Hbuf|].
    apply Forall_concat. apply Forall_forall. intros d Hd.
    apply in_map_iff in Hd. destruct Hd as (p & <- & Hp).
    apply filter_In in Hp. destruct Hp as [Hp _].
    rewrite Forall_forall in Hpend. now apply Hpend.
  - apply Forall_forall. intros p Hp. apply filter_In in Hp. destruct Hp as [Hp _].
    rewrite Forall_forall in Hpend. now apply Hpend.
Qed.

Lemma Forall_firstn {A} (P : A -> Prop) n l : Forall P l -> Forall P (firstn n l).
Proof.
  intros H. rewrite <- (firstn_skipn n l) in H. apply Forall_app in H. tauto.
Qed.

Lemma Forall_skipn {A} (P : A -> Prop) n l : Forall P l -> Forall P (skipn n l).
Proof.
  intros H. rewrite <- (firstn_skipn n l) in H. apply Forall_app in H. tauto.
Qed.

(** A payload that is due and not empty makes the channel ready. *)
Lemma arrived_payload_is_buffered w p :
  In p (pending w) -> fst p <= clock w -> snd p <> [] -> inbuf (deliver w) <> [].
Proof.
  intros Hin Hdue Hne Hempty. unfold deliver in Hempty. proj_in Hempty.
  apply app_eq_nil in Hempty. destruct Hempty as [_ Hnil].
  apply concat_nil_Forall in Hnil. rewrite Forall_forall in Hnil.
  apply Hne. apply Hnil. apply in_map. apply filter_In. split; [exact Hin|].
  unfold arrived. now apply Z.leb_le.
Qed.

Lemma still_pending w p :
  In p (pending w) -> clock w < fst p -> In p (pending (deliver w)).
Proof.
  intros Hin Hlater. unfold deliver. proj. apply filter_In. split; [exact Hin|].
  unfold arrived. apply negb_true_iff. apply Z.leb_gt. exact Hlater.
Qed.

Lemma collect_loop_reads : forall fuel out start w o w',
  collect_loop fuel out start w = Some (Ret o, w') ->
  start <= clock w -> about_to_poll start w ->
  exists evs,
    trace w' = trace w ++ evs /\
    Forall (fun e => clock w <= fst e) evs /\
    inbuf w' = [] /\
    Forall (fun p => clock w' - 100 < fst p) (pending w') /\
    incl (pending w') (pending w) /\
    (length (received_in evs) + channel_bytes w' = channel_bytes w)%nat /\
    (forall P, all_bytes P w -> Forall P (received_in evs)) /\
    (inbuf (deliver w) <> [] -> clock w - start < 30000 ->
     clock w <= last_reset start evs) /\
    (forall p, In p (pending w) -> snd p <> [] -> fst p <= clock w' - 100 ->
               fst p <= last_reset start evs).
Proof.
  induction fuel as [|fuel IH]; intros out start w o w' Hrun Hstart Hpre; [discriminate|].
  rewrite collect_loop_unfold in Hrun.
  destruct (clock w - start <? 30000) eqn:Hcond.
  2:{ apply Z.ltb_ge in Hcond. inversion Hrun; subst o w'. clear Hrun.
      destruct Hpre as [Hlt|[Hbuf Hpend]]; [lia|].
      exists []. rewrite app_nil_r.
      split; [reflexivity|]. split; [constructor|]. split; [exact Hbuf|].
      split; [exact Hpend|]. split; [apply incl_refl|]. split; [reflexivity|].
      split; [constructor|].
      split; [intros _ Hlt; lia|].
      intros p Hin _ Hdue. rewrite Forall_forall in Hpend. specialize (Hpend p Hin). lia. }
  apply Z.ltb_lt in Hcond. cbv zeta in Hrun.
  destruct (hd None (faults w)) as [e|]; [discriminate|].
  set (w2 := deliver (set_faults (tl (faults w)) w)) in *.
  assert (Hs2 : settled w2) by apply settled_deliver.
  assert (Hb2 : channel_bytes w2 = channel_bytes w)
    by (unfold w2; now rewrite deliver_bytes).
  assert (Hready : inbuf w2 = inbuf (deliver w)) by reflexivity.
  assert (Hpend2 : pending w2 = pending (deliver w)) by reflexivity.
  assert (Hlater : Forall (fun p => clock w < fst p) (pending w2)).
  { unfold settled in Hs2. eapply Forall_impl; [|exact Hs2].
    intros p Hp. unfold arrived in Hp. apply Z.leb_gt in Hp. exact Hp. }
  destruct (inbuf w2) as [|b l] eqn:Hbuf.
  - (* an idle poll *)
    set (ws := set_clock (clock w + 100) (log (EvSleep 100) w2)) in *.
    destruct (IH out start ws o w' Hrun) as
      (evs & Htr & Hafter & Hend & Hpend & Hincl & Hlen & Hprov & _ & Hseen).
    + change (clock ws) with (clock w + 100). lia.
    + right. split; [exact Hbuf|].
      change (clock ws) with (clock w + 100). change (pending ws) with (pending w2).
      eapply Forall_impl; [|exact Hlater]. cbv beta. intros; lia.
    + exists ((clock w, EvSleep 100) :: evs).
      split; [rewrite Htr; unfold ws; proj; now rewrite <- app_assoc|].
      split.
      { constructor; [cbn; lia|]. eapply Forall_impl; [|exact Hafter].
        cbv beta. change (clock ws) with (clock w + 100). intros; lia. }
      split; [exact Hend|]. split; [exact Hpend|].
      split.
      { intros p Hp. apply Hincl in Hp. change (pending ws) with (pending w2) in Hp.
        rewrite Hpend2 in Hp. unfold deliver in Hp. proj_in Hp.
        apply filter_In in Hp. tauto. }
      split; [cbn [received_in]; change (channel_bytes ws) with (channel_bytes w2) in Hlen; lia|].
      split.
      { intros P HP. cbn [received_in]. apply Hprov.
        apply all_bytes_deliver in HP. exact HP. }
      split; [intros Hne; rewrite <- Hready in Hne; contradiction|].
      intros p Hin Hne Hdue. cbn [last_reset]. apply Hseen; [|exact Hne|exact Hdue].
      change (pending ws) with (pending w2). rewrite Hpend2.
      destruct (Z.le_gt_cases (fst p) (clock w)) as [Harr|Hnot].
      * exfalso. apply (arrived_payload_is_buffered w p Hin Harr Hne).
        now rewrite <- Hready.
      * apply still_pending; [exact Hin|lia].
  - (* a chunk is read *)
    destruct (hd None (faults w2)) as [e|]; [discriminate|].
    set (data := firstn chunk_size (b :: l)) in *.
    set (w4 := log (EvPrint (decode_ignore data)) _) in Hrun.
    destruct (IH (out ++ decode_ignore data) (clock w) w4 o w' Hrun) as
      (evs & Htr & Hafter & Hend & Hpend & Hincl & Hlen & Hprov & _ & Hseen).
    + change (clock w4) with (clock w). lia.
    + left. change (clock w4) with (clock w). lia.
    + change (clock w4) with (clock w) in *.
      assert (Hreset : clock w <= last_reset (clock w) evs)
        by (apply last_reset_ge; [exact Hafter|lia]).
      exists ((clock w, EvRecv data) :: (clock w, EvPrint (decode_ignore data)) :: evs).
      split; [rewrite Htr; unfold w4; proj; now rewrite <- !app_assoc|].
      split; [repeat (constructor; [cbn; lia|]); exact Hafter|].
      split; [exact Hend|]. split; [exact Hpend|].
      split.
      { intros p Hp. apply Hincl in Hp. change (pending w4) with (pending w2) in Hp.
        rewrite Hpend2 in Hp. unfold deliver in Hp. proj_in Hp.
        apply filter_In in Hp. tauto. }
      split.
      { cbn [received_in]. rewrite length_app.
        assert (channel_bytes w4 + length data = channel_bytes w2)%nat.
        { unfold channel_bytes, w4, data. proj. rewrite Hbuf.
          pose proof (firstn_skipn chunk_size (b :: l)) as Hsplit.
          apply (f_equal (@length byte)) in Hsplit. rewrite length_app in Hsplit. lia. }
        lia. }
      split.
      { intros P HP. apply all_bytes_deliver in HP. destruct HP as [HPbuf HPpend].
        rewrite <- Hready in HPbuf. cbn [received_in]. apply Forall_app. split.
        - now apply Forall_firstn.
        - apply Hprov. split; [unfold w4; proj; now apply Forall_skipn|exact HPpend]. }
      split; [intros _ _; cbn [last_reset]; exact Hreset|].
      intros p Hin Hne Hdue. cbn [last_reset].
      destruct (Z.le_gt_cases (fst p) (clock w)) as [Harr|Hnot]; [lia|].
      apply Hseen; [|exact Hne|exact Hdue].
      change (pending w4) with (pending w2). rewrite Hpend2.
      apply still_pending; [exact Hin|lia].
Qed.

Lemma collect_reads w :
  faults w = [] ->
  exists out w' evs,
    collect w = Some (Ret out, w') /\
    trace w' = trace w ++ evs /\
    out = collected_in evs /\
    clock w' = last_reset (clock w) evs + 30000 /\
    inbuf w' = [] /\
    Forall (fun p => clock w' - 100 < fst p) (pending w') /\
    (length (received_in evs) + channel_bytes w' = channel_bytes w)%nat /\
    (forall P, all_bytes P w -> Forall P (received_in evs)) /\
    (forall p, In p (pending w) -> snd p <> [] -> fst p <= clock w + 29900 ->
               fst p + 30000 <= clock w').
Proof.
  intros Hnil.
  destruct (collect_run w) as (r & w' & evs & Hrun & Htr & _ & _ & _ & Hok & Hret).
  destruct (Hok Hnil) as [Hr _].
  destruct r as [out|]; [|discriminate].
  destruct (Hret out eq_refl) as (Hout & Hlong & Hexact).
  assert (Hloop : collect_loop (collect_fuel w) [] (clock w) w = Some (Ret out, w'))
    by exact Hrun.
  destruct (collect_loop_reads _ _ _ _ _ _ Hloop) as
    (evs' & Htr' & _ & Hend & Hpend & _ & Hlen & Hprov & _ & Hseen).
  { lia. }
  { left. lia. }
  rewrite Htr in Htr'. apply app_inv_head in Htr'. subst evs'.
  exists out, w', evs.
  repeat (split; [assumption|]).
  intros p Hin Hne Hearly.
  assert (fst p <= last_reset (clock w) evs) by (apply Hseen; [assumption|assumption|lia]).
  lia.
Qed.

Lemma run_one_reads cmd w :
  faults w = [] ->
  exists out w1 evs,
    run_one cmd w = Some (Ret out, w1) /\
    trace w1 = trace w ++ evs /\
    out = collected_in evs /\
    inbuf w1 = [] /\
    Forall (fun p => clock w1 - 100 < fst p) (pending w1) /\
    (forall p, In p (pending w) -> snd p <> [] -> fst p <= clock w + 31900 ->
               fst p + 30000 <= clock w1) /\
    (forall rest, run_commands (cmd :: rest) w = run_commands rest w1).
Proof.
  intros Hnil.
  pose (w3 := set_clock (clock w + 2000)
                (log (EvSleep 2000)
                   (log (EvSend (cmd ++ newline))
                      (set_faults (tl [])
                         (log (EvPrint ((newline ++ lit ">>> Running: " ++ cmd) ++ newline))
                            w))))).
  assert (Hone : run_one cmd w = collect w3).
  { rewrite run_one_unfold. cbv zeta. rewrite Hnil. reflexivity. }
  destruct (collect_reads w3 eq_refl) as
    (out & w1 & evs & Hrun & Htr & Hout & _ & Hend & Hpend & _ & _ & Halive).
  rewrite <- Hone in Hrun.
  exists out, w1, ([(clock w, EvPrint ((newline ++ lit ">>> Running: " ++ cmd) ++ newline));
                    (clock w, EvSend (cmd ++ newline));
                    (clock w, EvSleep 2000)] ++ evs).
  split; [exact Hrun|].
  split; [rewrite Htr; unfold w3; proj; now rewrite <- !(app_assoc (A := Z * Op))|].
  split; [exact Hout|]. split; [exact Hend|]. split; [exact Hpend|].
  split.
  - intros p Hin Hne Hearly. apply Halive; [exact Hin|exact Hne|].
    change (clock w3) with (clock w + 2000). lia.
  - intros rest. cbn [run_commands]. unfold bind at 1. now rewrite Hrun.
Qed.

(** C1. The collection loop of a command runs on a rolling window.
    (1) When the transport does not fail, the loop reads what the channel
    holds and what arrives: its output is the text of the chunks received,
    the bytes received are the bytes that left the channel, and when the
    loop ends nothing that had arrived by its last poll is left unread.  It
    ends exactly 30 seconds after the last chunk it read, or after its own
    start when it read none; so data that arrives while the window is open
    keeps the loop alive until at least 30 seconds after that arrival.
    (2) A read made at any moment inside the window keeps the loop running
    for at least 30 more seconds from that moment.  (3) A loop that starts on
    an empty buffer with nothing arriving for the next 30 seconds ends
    exactly 30 seconds after its start, not before, with nothing collected.
    (4) Seen from the queue: a command's run reads what arrives until 30
    seconds of silence have passed, and the driver then goes on with the
    rest of the queue.  (5) When nothing is buffered and nothing arrives
    until 30 seconds after the settle delay, the command is done 32 seconds
    after it was sent. *)
Theorem rolling_inactivity_window :
  (forall w, faults w = [] ->
     exists out w' evs,
       collect w = Some (Ret out, w') /\
       trace w' = trace w ++ evs /\
       out = collected_in evs /\
       clock w' = last_reset (clock w) evs + 30000 /\
       inbuf w' = [] /\
       Forall (fun p => clock w' - 100 < fst p) (pending w') /\
       (length (received_in evs) + channel_bytes w' = channel_bytes w)%nat /\
       (forall P, all_bytes P w -> Forall P (received_in evs)) /\
       (forall p, In p (pending w) -> snd p <> [] -> fst p <= clock w + 29900 ->
                  fst p + 30000 <= clock w')) /\
  (forall fuel out start w,
     faults w = [] -> start <= clock w -> clock w - start < 30000 ->
     inbuf (deliver w) <> [] -> (collect_fuel w <= fuel)%nat ->
     exists out' w',
       collect_loop fuel out start w = Some (Ret out', w') /\
       clock w + 30000 <= clock w') /\
  (forall w,
     faults w = [] -> inbuf w = [] ->
     Forall (fun p => clock w + 30000 <= fst p) (pending w) ->
     exists w',
       collect w = Some (Ret [], w') /\
       clock w' = clock w + 30000) /\
  (forall cmd w, faults w = [] ->
     exists out w1 evs,
       run_one cmd w = Some (Ret out, w1) /\
       trace w1 = trace w ++ evs /\
       out = collected_in evs /\
       inbuf w1 = [] /\
       Forall (fun p => clock w1 - 100 < fst p) (pending w1) /\
       (forall p, In p (pending w) -> snd p <> [] -> fst p <= clock w + 31900 ->
                  fst p + 30000 <= clock w1) /\
       (forall rest, run_commands (cmd :: rest) w = run_commands rest w1)) /\
  (forall cmd rest w,
     faults w = [] -> inbuf w = [] ->
     Forall (fun p => clock w + 32000 <= fst p) (pending w) ->
     exists w1,
       run_one cmd w = Some (Ret [], w1) /\
       clock w1 = clock w + 32000 /\
       run_commands (cmd :: rest) w = run_commands rest w1).
Proof.
  split; [|split; [|split; [|split]]].
  - exact collect_reads.
  - intros. now apply collect_loop_reset.
  - intros w Hnil Hbuf Hpend.
    destruct (collect_silent w Hnil Hbuf Hpend) as (w' & Hrun & Hclock & _).
    now exists w'.
  - intros cmd w Hnil. exact (run_one_reads cmd w Hnil).
  - intros cmd rest w Hnil Hbuf Hpend.
    destruct (run_one_silent cmd w Hnil Hbuf Hpend) as (w1 & Hrun & Hclock & _).
    exists w1. split; [exact Hrun|]. split; [exact Hclock|].
    cbn [run_commands]. unfold bind at 1. now rewrite Hrun.
Qed.

(** A channel that writes every ten seconds keeps the first command's
    collection alive until 90 seconds; a buffered chunk is read at once; a
    silent channel ends the collection after 30 seconds. *)
Lemma rolling_inactivity_window_witness :
  (exists out w',
      collect world_chatty = Some (Ret out, w') /\
      inbuf w' = [] /\ 40000 <= clock w') /\
  (exists out' w',
      collect_loop (collect_fuel world_malformed) [] 0 world_malformed = Some (Ret out', w') /\
      clock world_malformed + 30000 <= clock w') /\
  (exists w', collect idle = Some (Ret [], w') /\ clock w' = clock idle + 30000) /\
  (exists out w1,
      run_one (lit "ls") world_chatty = Some (Ret out, w1) /\
      40000 <= clock w1 /\
      run_commands [lit "ls"; lit "pwd"] world_chatty = run_commands [lit "pwd"] w1) /\
  (exists w1,
      run_one (lit "ls") idle = Some (Ret [], w1) /\
      clock w1 = clock idle + 32000 /\
      run_commands [lit "ls"; lit "pwd"] idle = run_commands [lit "pwd"] w1).
Proof.
  destruct rolling_inactivity_window as (H1 & H2 & H3 & H4 & H5).
  assert (Hin : In (10000, [x61]) (pending world_chatty)) by (left; reflexivity).
  split; [|split; [|split; [|split]]].
  - destruct (H1 world_chatty eq_refl)
      as (out & w' & evs & Hrun & _ & _ & _ & Hend & _ & _ & _ & Halive).
    exists out, w'. split; [exact Hrun|]. split; [exact Hend|].
    apply (Halive (10000, [x61]) Hin); [discriminate|cbn; lia].
  - apply H2; [reflexivity|cbn; lia|cbn; lia|vm_compute; discriminate|lia].
  - apply H3; [reflexivity|reflexivity|constructor].
  - destruct (H4 (lit "ls") world_chatty eq_refl)
      as (out & w1 & evs & Hrun & _ & _ & _ & _ & Halive & Hnext).
    exists out, w1. split; [exact Hrun|]. split; [|apply Hnext].
    apply (Halive (10000, [x61]) Hin); [discriminate|cbn; lia].
  - apply (H5 (lit "ls") [lit "pwd"] idle); [reflexivity|reflexivity|constructor].
Defined.

(** * Further properties, continued *)

(** ** What [True] from a download means *)

Lemma download_body_copied host username password remote_path local_path w b w1 :
  Download.download_body host username password remote_path local_path w = Some (Ret b, w1) ->
  clean 4 (faults w) /\
  exists content,
    lookup_file remote_path (remote_fs w) = Some content /\
    lookup_file local_path (local_fs w1) = Some content.
Proof.
  unfold Download.download_body, print, client_connect, transport, sftp_get, effect,
    fault_check, bind, ret.
  intros H. proj_in H. cbn [clean].
  repeat (match type of H with
          | context [hd None ?x] => destruct (hd None x) eqn:?; try discriminate
          | context [lookup_file ?p ?x] => destruct (lookup_file p x) eqn:?; try discriminate
          end; proj_in H).
  inversion H; subst; clear H. proj.
  split; [repeat split; assumption|].
  eexists. split; [reflexivity|apply lookup_file_head].
Qed.

(** X3. [download_file] returns [True] only after the transfer was made:
    all four calls went through, the remote file exists and the local path
    then holds its content.  When the remote file does not exist the
    function returns [False]. *)
Theorem download_true_means_file_copied :
  forall (host username password remote_path local_path : pystr) (w : World),
  exists b w',
    Download.download_file host username password remote_path local_path w
      = Some (Ret b, w') /\
    (b = true ->
     clean 4 (faults w) /\
     exists content,
       lookup_file remote_path (remote_fs w) = Some content /\
       lookup_file local_path (local_fs w') = Some content) /\
    (lookup_file remote_path (remote_fs w) = None -> b = false).
Proof.
  intros.
  destruct (download_body_quiet host username password remote_path local_path
              (log EvHostKeyPolicy w)) as (r & w1 & evs & Hrun & _).
  rewrite download_file_guarded, (guarded_run _ _ w r w1 Hrun).
  destruct r as [b|e]; cbn [after_try].
  - destruct (download_body_copied _ _ _ _ _ _ _ _ Hrun) as (Hclean & content & Hremote & Hlocal).
    rewrite (download_body_value _ _ _ _ _ _ _ _ Hrun).
    exists true, (log EvClose w1). split; [reflexivity|]. split.
    + intros _. split; [exact Hclean|]. exists content. split; [exact Hremote|exact Hlocal].
    + intros Hnone. change (remote_fs (log EvHostKeyPolicy w)) with (remote_fs w) in Hremote.
      rewrite Hnone in Hremote. discriminate.
  - eexists false, _. split; [reflexivity|]. split; [discriminate|reflexivity].
Qed.

(** A remote side that holds the file. *)
Lemma download_true_means_file_copied_witness :
  exists w',
    Download.download_file (lit "host") (lit "user") (lit "secret")
      (lit "/tmp/a.png") (lit "a.png") world_with_file = Some (Ret true, w') /\
    lookup_file (lit "a.png") (local_fs w') = Some [x89; x50].
Proof.
  pose proof (download_true_means_file_copied (lit "host") (lit "user") (lit "secret")
                (lit "/tmp/a.png") (lit "a.png") world_with_file) as H.
  destruct H as (b & w' & Hrun & Htrue & _).
  assert (Hb : b = true).
  { assert (Hout : outcome_of (Some (Ret b, w')) = Some (Ret true))
      by (rewrite <- Hrun; vm_compute; reflexivity).
    inversion Hout. reflexivity. }
  subst b. exists w'. split; [exact Hrun|].
  destruct (Htrue eq_refl) as (_ & content & Hremote & Hlocal).
  assert (Hc : content = [x89; x50])
    by (vm_compute in Hremote; inversion Hremote; reflexivity).
  subst content. exact Hlocal.
Defined.

(** ** Decoding chunk by chunk in the collection loop *)

Lemma collected_ascii : forall evs,
  Forall (fun b => (Byte.to_N b < 128)%N) (received_in evs) ->
  collected_in evs = map Byte.to_N (received_in evs).
Proof.
  induction evs as [|[t op] evs IH]; intros H; [reflexivity|].
  destruct op; cbn [collected_in received_in] in *; auto.
  apply Forall_app in H. destruct H as [Hd Hrest].
  now rewrite map_app, (decode_ignore_ascii _ Hd), (IH Hrest).
Qed.

Lemma decode_ignore_lead2 lead :
  in_range 194 223 (Byte.to_N lead) = true -> decode_ignore [lead] = [].
Proof.
  intros H. unfold decode_ignore. cbn [utf8_scan utf8_step].
  now rewrite (utf8_start_lead2 _ H).
Qed.

Lemma decode_ignore_continuation continuation :
  in_range 128 191 (Byte.to_N continuation) = true -> decode_ignore [continuation] = [].
Proof.
  intros H. unfold decode_ignore. cbn [utf8_scan utf8_step].
  now rewrite (utf8_start_continuation _ H).
Qed.

Lemma decode_ignore_two_bytes lead continuation :
  in_range 194 223 (Byte.to_N lead) = true ->
  in_range 128 191 (Byte.to_N continuation) = true ->
  decode_ignore [lead; continuation]
  = [(N.land (Byte.to_N lead) 31 * 64 + N.land (Byte.to_N continuation) 63)%N].
Proof.
  intros Hlead Hcont. unfold decode_ignore. cbn [utf8_scan utf8_step].
  rewrite (utf8_start_lead2 _ Hlead). cbn [utf8_scan utf8_step app]. now rewrite Hcont.
Qed.

Lemma collected_nothing_received : forall evs,
  received_in evs = [] -> collected_in evs = [].
Proof.
  induction evs as [|[t op] evs IH]; intros H; [reflexivity|].
  destruct op; cbn [collected_in received_in] in *; auto.
  apply app_eq_nil in H. destruct H as [-> Hrest]. now rewrite (IH Hrest).
Qed.

Lemma collected_lone_continuation : forall evs continuation,
  in_range 128 191 (Byte.to_N continuation) = true ->
  received_in evs = [continuation] -> collected_in evs = [].
Proof.
  induction evs as [|[t op] evs IH]; intros c Hc H; [discriminate|].
  destruct op; cbn [collected_in received_in] in *; eauto.
  destruct data as [|b data].
  - cbn [app] in H. now rewrite (IH c Hc H).
  - cbn [app] in H. inversion H as [[Hb Hrest]]. subst b.
    apply app_eq_nil in Hrest. destruct Hrest as [-> Hrest].
    now rewrite (decode_ignore_continuation _ Hc), (collected_nothing_received _ Hrest).
Qed.

(** The first poll of a collection finds [buf], at most one chunk long, in
    the buffer and nothing due: the chunk is read at once and the loop goes
    on from there. *)
Lemma collect_first_chunk fuel w buf :
  faults w = [] -> inbuf w = buf -> buf <> [] -> (length buf <= chunk_size)%nat ->
  Forall (fun p => clock w < fst p) (pending w) ->
  collect_loop (S fuel) [] (clock w) w
  = collect_loop fuel (decode_ignore buf) (clock w)
      (log (EvPrint (decode_ignore buf))
         (log (EvRecv buf)
            (set_channel [] (pending w) (set_faults [] (set_faults [] w))))).
Proof.
  intros Hnil Hbuf Hne Hlen Hlater.
  rewrite collect_loop_unfold.
  replace (clock w - clock w <? 30000) with true by (rewrite Z.sub_diag; reflexivity).
  cbv zeta. rewrite Hnil. cbn [hd tl].
  assert (Hset : settled (set_faults [] w)).
  { unfold settled. proj. eapply Forall_impl; [|exact Hlater].
    intros p Hp. unfold arrived. apply Z.leb_gt. exact Hp. }
  rewrite (deliver_fixed _ Hset). proj. rewrite Hbuf.
  destruct buf as [|b l]; [contradiction|]. cbn [hd tl].
  rewrite (firstn_all2 (b :: l) Hlen), (skipn_all2 (b :: l) Hlen).
  reflexivity.
Qed.

(** X11. Each chunk is decoded on its own.  For plain ASCII this is
    harmless: however the bytes fall into chunks, the text the loop collects
    is the bytes it received.  But a two-byte character whose second byte
    arrives after the first has been read is lost without a trace: both
    bytes are received and nothing is collected, whereas the same two bytes
    found together in the buffer are collected as one character. *)
Theorem decoding_per_chunk :
  (forall w,
      faults w = [] -> all_bytes (fun b => (Byte.to_N b < 128)%N) w ->
      exists out w' evs,
        collect w = Some (Ret out, w') /\
        trace w' = trace w ++ evs /\
        out = map Byte.to_N (received_in evs)) /\
  (forall (lead continuation : byte) (t : Z) (w : World),
      in_range 194 223 (Byte.to_N lead) = true ->
      in_range 128 191 (Byte.to_N continuation) = true ->
      faults w = [] -> inbuf w = [lead] -> pending w = [(t, [continuation])] ->
      clock w < t <= clock w + 29900 ->
      exists w' evs,
        collect w = Some (Ret [], w') /\
        trace w' = trace w ++ evs /\
        received_in evs = [lead; continuation]) /\
  (forall (lead continuation : byte) (w : World),
      in_range 194 223 (Byte.to_N lead) = true ->
      in_range 128 191 (Byte.to_N continuation) = true ->
      faults w = [] -> inbuf w = [lead; continuation] -> pending w = [] ->
      exists w',
        collect w
        = Some (Ret [(N.land (Byte.to_N lead) 31 * 64
                      + N.land (Byte.to_N continuation) 63)%N], w')).
Proof.
  split; [|split].
  - intros w Hnil Hascii.
    destruct (collect_reads w Hnil) as
      (out & w' & evs & Hrun & Htr & Hout & _ & _ & _ & _ & Hprov & _).
    exists out, w', evs. split; [exact Hrun|]. split; [exact Htr|].
    rewrite Hout. apply collected_ascii. now apply Hprov.
  - intros lead continuation t w Hlead Hcont Hnil Hbuf Hpend Ht.
    unfold collect, bind, time_time.
    assert (Hfuel : collect_fuel w = S 903).
    { unfold collect_fuel, channel_bytes. rewrite Hbuf, Hpend. reflexivity. }
    rewrite Hfuel.
    rewrite (collect_first_chunk 903 w [lead] Hnil Hbuf).
    2:{ discriminate. }
    2:{ pose proof chunk_size_pos. cbn [length]. lia. }
    2:{ rewrite Hpend. constructor; [cbn; lia|constructor]. }
    rewrite (decode_ignore_lead2 _ Hlead).
    set (w4 := log (EvPrint []) _).
    destruct (collect_loop_run 903 [] (clock w) w4) as
      (r & w' & evs & Hrun & Htr & _ & _ & _ & Hok & Hret).
    { unfold polls_left, channel_bytes, w4. proj. rewrite Hpend.
      replace (clock w + 30000 - clock w + 99) with 30099 by lia.
      change (Z.to_nat (30099 / 100)) with 300%nat. cbn [length map concat snd app]. lia. }
    { change (clock w4) with (clock w). lia. }
    destruct (Hok eq_refl) as [Hr _].
    destruct r as [o|]; [|discriminate].
    destruct (Hret o eq_refl) as (Hout & Hlong & _).
    destruct (collect_loop_reads _ _ _ _ _ _ Hrun) as
      (evs' & Htr' & _ & Hend & Hlate & Hincl & Hlen & Hprov & _ & _).
    { change (clock w4) with (clock w). lia. }
    { left. change (clock w4) with (clock w). lia. }
    rewrite Htr in Htr'. apply app_inv_head in Htr'. subst evs'.
    assert (Hgone : pending w' = []).
    { destruct (pending w') as [|q rest] eqn:Hq; [reflexivity|exfalso].
      assert (Hin : In q (pending w4)) by (apply Hincl; now left).
      change (pending w4) with (pending w) in Hin. rewrite Hpend in Hin.
      destruct Hin as [<-|[]].
      inversion Hlate as [|? ? Hq1 _]. cbn [fst] in Hq1. lia. }
    assert (Hone : length (received_in evs) = 1%nat).
    { unfold channel_bytes in Hlen. rewrite Hend, Hgone in Hlen.
      unfold w4 in Hlen. proj_in Hlen. rewrite Hpend in Hlen.
      cbn [length map concat snd app] in Hlen. lia. }
    assert (Hall : Forall (fun b => b = continuation) (received_in evs)).
    { apply Hprov. split; [constructor|].
      change (pending w4) with (pending w). rewrite Hpend. repeat constructor. }
    assert (Hrecv : received_in evs = [continuation]).
    { destruct (received_in evs) as [|b [|b' l]]; try discriminate.
      inversion Hall; subst. reflexivity. }
    exists w', ((clock w, EvRecv [lead]) :: (clock w, EvPrint []) :: evs).
    split.
    + rewrite Hrun, Hout, (collected_lone_continuation _ _ Hcont Hrecv). reflexivity.
    + split; [rewrite Htr; unfold w4; proj; now rewrite <- !app_assoc|].
      cbn [received_in app]. now rewrite Hrecv.
  - intros lead continuation w Hlead Hcont Hnil Hbuf Hpend.
    unfold collect, bind, time_time.
    assert (Hfuel : collect_fuel w = S 903).
    { unfold collect_fuel, channel_bytes. rewrite Hbuf, Hpend. reflexivity. }
    rewrite Hfuel.
    rewrite (collect_first_chunk 903 w [lead; continuation] Hnil Hbuf).
    2:{ discriminate. }
    2:{ pose proof chunk_size_pos. unfold chunk_size in *. cbn [length]. lia. }
    2:{ rewrite Hpend. constructor. }
    rewrite (decode_ignore_two_bytes _ _ Hlead Hcont).
    set (w4 := log (EvPrint _) _).
    destruct (silent_loop 300 903 [(N.land (Byte.to_N lead) 31 * 64
                                    + N.land (Byte.to_N continuation) 63)%N]
                (clock w) w4) as (w' & Hrun & _); try reflexivity; try lia.
    + change (pending w4) with (pending w). rewrite Hpend. constructor.
    + change (clock w4) with (clock w). lia.
    + exists w'. exact Hrun.
Qed.

(** The two bytes of [U+00E9], first apart and then together. *)
Lemma decoding_per_chunk_witness :
  (exists w' evs,
      collect (mkWorld 0 [] [xc3] [(500, [xa9])] [] [] [] [] []) = Some (Ret [], w') /\
      received_in evs = [xc3; xa9]) /\
  (exists w',
      collect (mkWorld 0 [] [xc3; xa9] [] [] [] [] [] []) = Some (Ret [233%N], w')).
Proof.
  destruct decoding_per_chunk as (_ & Hsplit & Hwhole).
  split.
  - destruct (Hsplit xc3 xa9 500 (mkWorld 0 [] [xc3] [(500, [xa9])] [] [] [] [] []))
      as (w' & evs & Hrun & _ & Hrecv); try reflexivity.
    + cbn. lia.
    + exists w', evs. split; [exact Hrun|exact Hrecv].
  - apply (Hwhole xc3 xa9); reflexivity.
Defined.

(** ** Nothing is retried *)




